(** * streamlit_app.py: a shallow embedding and its verified properties

    The program is one Streamlit page script.  It takes the active
    Snowflake session or builds one from the secrets, loads the table
    REVIEWS_WITH_SENTIMENT through it, draws the mean
    sentiment per product, a product filter with the filtered table, a
    histogram of the sentiment scores of the filtered rows, and a chat box
    that forwards a prompt to SNOWFLAKE.CORTEX.COMPLETE.

    Modelling decisions, once and for all:
    - Python [str] is [string]; the only characters the script inspects are
      ASCII (the single quote), so bytes of the UTF-8 encoding stand for
      code points;
    - a pandas cell is [option value]: [None] is None / NaN / NaT;
    - a number of the table is a rational [Q], compared with [Qeq_bool] and
      [Qle_bool]: the arithmetic of binary64 on the scores is idealised to
      exact arithmetic (the bin count, which depends on a square root, is
      also stated on binary64).  A mean and the edges of the bins are the
      exact ones, not their roundings, and the numbers are finite: a table
      with an infinite score, on which [pd.cut] raises, is outside the
      model;
    - an exception is a record of its class name and [str(e)];
    - the Streamlit calls are recorded as a list of UI events, newest last;
    - [st.session_state] is a record holding the optional key [chat_msgs]. *)

From Stdlib Require Import List String Ascii Bool Arith ZArith QArith Lia Lqa.
From Stdlib Require Import Qabs DecimalString Sorted Reals Lra.
From Stdlib Require Floats Uint63.
From Stdlib Require Import Permutation.
Import ListNotations.

#[local] Close Scope Q_scope.
#[local] Close Scope R_scope.
#[local] Open Scope nat_scope.
#[local] Open Scope string_scope.

(** ** Python strings *)

Module PyStr.

(** [s.startswith(p)] *)
Fixpoint startswith (s p : string) {struct p} : bool :=
  match p with
  | EmptyString => true
  | String a p' =>
      match s with
      | EmptyString => false
      | String b s' => Ascii.eqb a b && startswith s' p'
      end
  end.

(** The scan of [str.replace(old, new)] for a non-empty [old]: occurrences
    are found left to right and do not overlap.  [skip] counts the
    characters of a matched occurrence that are still to be dropped. *)
Fixpoint replace_from (skip : nat) (old new s : string) : string :=
  match s with
  | EmptyString => EmptyString
  | String c s' =>
      match skip with
      | S k => replace_from k old new s'
      | O =>
          if startswith s old
          then new ++ replace_from (String.length old - 1) old new s'
          else String c (replace_from 0 old new s')
      end
  end.

(** With an empty [old], Python puts [new] before every character and at
    the end. *)
Fixpoint intersperse_all (new s : string) : string :=
  match s with
  | EmptyString => new
  | String c s' => new ++ String c (intersperse_all new s')
  end.

(** [s.replace(old, new)] *)
Definition replace (s old new : string) : string :=
  match old with
  | EmptyString => intersperse_all new s
  | String _ _ => replace_from 0 old new s
  end.

(** [sep.join(xs)] *)
Fixpoint join (sep : string) (xs : list string) : string :=
  match xs with
  | [] => EmptyString
  | [x] => x
  | x :: xs' => x ++ sep ++ join sep xs'
  end.

(** [s.count(c)] for a one-character [c] *)
Fixpoint count_char (c : ascii) (s : string) : nat :=
  match s with
  | EmptyString => 0
  | String a s' => (if Ascii.eqb a c then 1 else 0) + count_char c s'
  end.

(** [s[n:]] *)
Fixpoint drop (n : nat) (s : string) : string :=
  match n, s with
  | O, _ => s
  | S _, EmptyString => EmptyString
  | S k, String _ s' => drop k s'
  end.

(** [str(n)] for a non-negative integer *)
Definition of_nat (n : nat) : string :=
  DecimalString.NilEmpty.string_of_uint (Nat.to_uint n).

End PyStr.

(** ** The completion bridge: the SQL text of [cortex_complete] *)

Definition apostrophe : ascii := "'"%char.

(** [safe = prompt.replace("'", "''")] *)
Definition safe (prompt : string) : string :=
  PyStr.replace prompt "'" "''".

Definition sql_head : string := "SELECT SNOWFLAKE.CORTEX.COMPLETE('".

(** [sql = f"SELECT SNOWFLAKE.CORTEX.COMPLETE('{model}', '{safe}') AS RESP"] *)
Definition cortex_sql (model prompt : string) : string :=
  sql_head ++ model ++ "', '" ++ safe prompt ++ "') AS RESP".

(** The spec's words for the escaping step: every single quote doubled,
    every other character unchanged. *)
Fixpoint spec_double_quotes (s : string) : string :=
  match s with
  | EmptyString => EmptyString
  | String c s' =>
      if Ascii.eqb c apostrophe
      then String apostrophe (String apostrophe (spec_double_quotes s'))
      else String c (spec_double_quotes s')
  end.

(** How a reader of standard SQL takes a single-quoted literal, started
    after its opening quote: a doubled quote is one quote of the text, a
    lone quote closes the literal.  The result is the text and the rest of
    the statement.  (Snowflake reads the backslash as well, see
    [snowflake_literal].) *)
Fixpoint read_literal (s : string) : option (string * string) :=
  match s with
  | EmptyString => None
  | String c s' =>
      if Ascii.eqb c apostrophe
      then match s' with
           | String c' s'' =>
               if Ascii.eqb c' apostrophe
               then match read_literal s'' with
                    | Some (t, r) => Some (String apostrophe t, r)
                    | None => None
                    end
               else Some (EmptyString, s')
           | EmptyString => Some (EmptyString, EmptyString)
           end
      else match read_literal s' with
           | Some (t, r) => Some (String c t, r)
           | None => None
           end
  end.

(** ** The histogram's bin count *)

(** [bins = int(max(5, min(40, math.sqrt(len(s)))))].  [int] truncates, the
    bounds 5 and 40 are integers and the root is not negative, so the
    truncation commutes with the clamp and acts on the root alone, where it
    is the integer square root ([bins_real] below states the computation on
    the reals and [bins_real_eq] proves the two equal; [bins_binary64] states
    it on binary64 and [bins_binary64_eq] checks the two equal on every
    sample size up to 5000). *)
Definition bins (n : Z) : Z := Z.max 5 (Z.min 40 (Z.sqrt n)).

(** The same line read on the real numbers: [math.sqrt], then Python's
    [min] and [max], then the truncation of [int]. *)
Definition bins_real (n : Z) : Z :=
  Int_part (Rmax 5 (Rmin 40 (sqrt (IZR n)))).

(** The same line on binary64, as Python runs it.  A Python number is an
    [int] or a [float]; [min] and [max] return one of their arguments, the
    second one only when it is strictly smaller (larger); [int] of a float
    truncates toward zero. *)
Inductive pynum : Type :=
| PInt (z : Z)
| PFloat (x : PrimFloat.float).

Definition to_float (a : pynum) : PrimFloat.float :=
  match a with
  | PInt z => PrimFloat.of_uint63 (Uint63.of_Z z)
  | PFloat x => x
  end.

Definition py_lt (a b : pynum) : bool :=
  PrimFloat.ltb (to_float a) (to_float b).

Definition py_min (a b : pynum) : pynum := if py_lt b a then b else a.

Definition py_max (a b : pynum) : pynum := if py_lt a b then b else a.

Definition truncate (x : PrimFloat.float) : Z :=
  match FloatOps.Prim2SF x with
  | SpecFloat.S754_finite negative m e =>
      let v := if (0 <=? e)%Z then (Z.pos m * 2 ^ e)%Z
               else (Z.pos m / 2 ^ (- e))%Z in
      if negative then (- v)%Z else v
  | _ => 0%Z
  end.

Definition py_int (a : pynum) : Z :=
  match a with
  | PInt z => z
  | PFloat x => truncate x
  end.

Definition bins_binary64 (n : Z) : Z :=
  py_int (py_max (PInt 5)
            (py_min (PInt 40) (PFloat (PrimFloat.sqrt (to_float (PInt n)))))).

(** The spec's words: the root rounded to the nearest integer, then clamped.
    The root of an integer is never half way between two integers, so the
    nearest integer to the root of [n] is [k] when [n <= k*k + k] and [k+1]
    otherwise, for [k] the integer square root. *)
Definition spec_round_sqrt (n : Z) : Z :=
  let k := Z.sqrt n in
  if (n <=? k * k + k)%Z then k else (k + 1)%Z.

Definition spec_bins (n : Z) : Z := Z.max 5 (Z.min 40 (spec_round_sqrt n)).

(** ** Exceptions and results *)

(** A Python exception: the name of its class and the text of [str(e)].
    Every error the page can meet (a Snowpark error, [IndexError],
    [TypeError]) derives from [Exception]. *)
Record exn : Type := Exn { exn_class : string; exn_text : string }.

Inductive result (A : Type) : Type :=
| Ok (a : A)
| Raise (e : exn).
Arguments Ok {A} a.
Arguments Raise {A} e.

Definition rbind {A B : Type} (r : result A) (k : A -> result B) : result B :=
  match r with
  | Ok a => k a
  | Raise e => Raise e
  end.

(** ** Cells, rows and the table *)

(** What a cell of the table holds when it is not missing: text or a
    number. *)
Inductive value : Type :=
| VStr (s : string)
| VNum (q : Q).

(** A cell; [None] is a missing entry (None, NaN). *)
Definition cell : Type := option value.

(** The DataFrame returned by [to_pandas()]: the column labels and the rows
    in their order; the cell of a row under the i-th label is its i-th
    entry.  The labels of a table selected with [SELECT *] are distinct; a
    label is looked up at its first position. *)
Record DataFrame : Type := mkDF {
  columns : list string;
  rows : list (list cell)
}.

Definition cell_at (i : nat) (row : list cell) : cell := nth i row None.

Fixpoint index_of (name : string) (cols : list string) : option nat :=
  match cols with
  | [] => None
  | c :: cols' =>
      if String.eqb name c then Some 0
      else match index_of name cols' with
           | Some i => Some (S i)
           | None => None
           end
  end.

(** [name in df.columns] *)
Definition has_column (name : string) (df : DataFrame) : bool :=
  match index_of name (columns df) with
  | Some _ => true
  | None => false
  end.

(** The cell of [row] under the label [name] of [df] *)
Definition field (name : string) (df : DataFrame) (row : list cell) : cell :=
  match index_of name (columns df) with
  | Some i => cell_at i row
  | None => None
  end.

(** [df[name]], as the list of its cells *)
Definition column (name : string) (df : DataFrame) : list cell :=
  map (field name df) (rows df).

(** [len(df)] *)
Definition len (df : DataFrame) : nat := List.length (rows df).

(** Python's [==] on two present values: text equals text character by
    character (so case matters), a number equals a number of the same
    magnitude, and text never equals a number. *)
Definition value_eqb (a b : value) : bool :=
  match a, b with
  | VStr x, VStr y => String.eqb x y
  | VNum x, VNum y => Qeq_bool x y
  | _, _ => false
  end.

(** One entry of the mask [df[name] == v]: a missing cell compares false. *)
Definition cell_is (v : value) (c : cell) : bool :=
  match c with
  | Some w => value_eqb w v
  | None => false
  end.

(** [series.dropna()] *)
Fixpoint dropna {A : Type} (xs : list (option A)) : list A :=
  match xs with
  | [] => []
  | Some x :: xs' => x :: dropna xs'
  | None :: xs' => dropna xs'
  end.

(** [series.unique()]: the distinct values in the order of their first
    appearance. *)
Fixpoint unique (xs : list value) : list value :=
  match xs with
  | [] => []
  | x :: xs' => x :: filter (fun y => negb (value_eqb y x)) (unique xs')
  end.

(** Python's [<] on two values: defined inside one type, a [TypeError]
    across text and number. *)
Definition type_name (v : value) : string :=
  match v with
  | VStr _ => "str"
  | VNum _ => "float"
  end.

Definition value_lt (a b : value) : result bool :=
  match a, b with
  | VStr x, VStr y => Ok (String.ltb x y)
  | VNum x, VNum y => Ok (negb (Qle_bool y x))
  | _, _ =>
      Raise (Exn "TypeError"
               ("'<' not supported between instances of '" ++ type_name a
                ++ "' and '" ++ type_name b ++ "'"))
  end.

(** [sorted(xs)]: a stable sort that only asks [<]; the first comparison
    across types raises (which two entries Python compares first, and so the
    order of the two type names in the text, is that of its own sort).  [insert x l] puts [x] before the first entry that
    is not below it. *)
Fixpoint insert (x : value) (l : list value) : result (list value) :=
  match l with
  | [] => Ok [x]
  | y :: l' =>
      rbind (value_lt y x) (fun below =>
        if below then rbind (insert x l') (fun r => Ok (y :: r))
        else Ok (x :: l))
  end.

Fixpoint sorted (xs : list value) : result (list value) :=
  match xs with
  | [] => Ok []
  | x :: xs' => rbind (sorted xs') (insert x)
  end.

(** [df[mask]] for the mask [df[name] == v]: the rows that pass, in their
    order, under the same labels. *)
Definition select_rows (name : string) (v : value) (df : DataFrame)
  : DataFrame :=
  mkDF (columns df)
    (filter (fun row => cell_is v (field name df row)) (rows df)).

(** ** Sums and means *)

Definition qsum (xs : list Q) : Q := fold_right Qplus 0%Q xs.

(** [series.mean()]: the missing entries are skipped; with nothing left the
    mean is missing. *)
Definition mean (xs : list (option Q)) : option Q :=
  match dropna xs with
  | [] => None
  | v :: vs =>
      Some (qsum (v :: vs) / inject_Z (Z.of_nat (List.length (v :: vs))))%Q
  end.

(** The order of [sort_values()]: ascending, the missing means last. *)
Definition mean_leb (a b : option Q) : bool :=
  match a, b with
  | _, None => true
  | None, Some _ => false
  | Some x, Some y => Qle_bool x y
  end.

(** [sort_values()] on a series of (label, mean).  numpy's default sort does
    not fix the order of equal means; the model keeps them in their order. *)
Fixpoint insert_by_mean (x : value * option Q) (l : list (value * option Q))
  : list (value * option Q) :=
  match l with
  | [] => [x]
  | y :: l' =>
      if mean_leb (snd x) (snd y) then x :: l else y :: insert_by_mean x l'
  end.

Definition sort_values (l : list (value * option Q)) : list (value * option Q) :=
  fold_right insert_by_mean [] l.

(** ** [pd.cut(s, bins=n)] followed by [value_counts().sort_index()] *)

Definition qmin (a b : Q) : Q := if Qle_bool a b then a else b.
Definition qmax (a b : Q) : Q := if Qle_bool a b then b else a.

(** [s.min()] and [s.max()] of a series with first entry [x] *)
Definition series_min (x : Q) (xs : list Q) : Q := fold_left qmin xs x.
Definition series_max (x : Q) (xs : list Q) : Q := fold_left qmax xs x.

Definition of_nat_q (n : nat) : Q := inject_Z (Z.of_nat n).

(** [np.linspace(lo, hi, n + 1)]: [n + 1] points, the i-th at
    [lo + i * step] for [step = (hi - lo) / n], the last set to [hi]. *)
Definition linspace (lo hi : Q) (n : nat) : list Q :=
  match n with
  | O => [lo]
  | S _ =>
      (map (fun i => of_nat_q i * ((hi - lo) / of_nat_q n) + lo)%Q (seq 0 n)
       ++ [hi])%list
  end.

Definition permille : Q := (1 # 1000)%Q.

(** The end-point adjustment of pandas when all values are equal:
    [0.001 * abs(m)], or [0.001] at zero. *)
Definition widen (m : Q) : Q :=
  if Qeq_bool m 0 then permille else (permille * Qabs m)%Q.

(** The bin edges pandas derives from an integer [bins]: an equal-width grid
    over [min, max] whose first edge is lowered by 0.1% of the range, so that
    the minimum falls in the first bin; a series of equal values gets a grid
    around that value. *)
Definition bin_edges (x : Q) (xs : list Q) (n : nat) : list Q :=
  let mn := series_min x xs in
  let mx := series_max x xs in
  if Qeq_bool mn mx
  then linspace (mn - widen mn)%Q (mx + widen mx)%Q n
  else match linspace mn mx n with
       | e0 :: es => (e0 - (mx - mn) * permille)%Q :: es
       | [] => []
       end.

(** The bins between consecutive edges, each open on the left and closed on
    the right. *)
Fixpoint intervals (edges : list Q) : list (Q * Q) :=
  match edges with
  | [] => []
  | a :: rest =>
      match rest with
      | [] => []
      | b :: _ => (a, b) :: intervals rest
      end
  end.

Definition in_bin (iv : Q * Q) (x : Q) : bool :=
  negb (Qle_bool x (fst iv)) && Qle_bool x (snd iv).

(** [hist = pd.cut(s, bins=n).value_counts().sort_index()]: one entry per
    bin, in ascending order of the bins, with the number of values of [s] in
    it.  The label pandas prints for a bin (its edges rounded to three
    digits) is not modelled: a bin is named by its edges. *)
Definition cut_counts (s : list Q) (n : nat) : list ((Q * Q) * nat) :=
  match s with
  | [] => []
  | x :: xs =>
      map (fun iv => (iv, List.length (filter (in_bin iv) s)))
        (intervals (bin_edges x xs n))
  end.

(** ** The screen and the session *)

(** A turn of the chat: [(role, msg)] *)
Definition turn : Type := (string * cell)%type.

(** The calls to Streamlit, as the events they put on the screen.  A text
    built from a table value with an f-string is kept in parts
    ([subheader_of before v after]). *)
Inductive ui_event : Type :=
| title (s : string)
| caption (s : string)
| subheader (s : string)
| subheader_of (before : string) (v : value) (after : string)
| header (s : string)
| markdown (s : string)
| info (s : string)
| warning (s : string)
| bar_chart_means (series : list (value * option Q))
| bar_chart_hist (hist : list ((Q * Q) * nat))
| dataframe (df : DataFrame)
| selectbox (label : string) (options : list value)
| chat_input (label : string)
| chat_message (role : string) (body : cell).

(** What a run of the script acts on: [st.session_state] (its only key is
    [chat_msgs], absent until the first run) and the screen, newest event
    last. *)
Record world : Type := mkWorld {
  chat_msgs : option (list turn);
  screen : list ui_event
}.

(** A step of the script: it may change the world and either returns or
    raises. *)
Definition M (A : Type) : Type := world -> result A * world.

Definition ret {A : Type} (a : A) : M A := fun w => (Ok a, w).

Definition bind {A B : Type} (m : M A) (k : A -> M B) : M B :=
  fun w =>
    match m w with
    | (Ok a, w') => k a w'
    | (Raise e, w') => (Raise e, w')
    end.

Definition lift {A : Type} (r : result A) : M A := fun w => (r, w).

(** [try: body except Exception as e: handler(e)] *)
Definition try_except {A : Type} (body : M A) (handler : exn -> M A) : M A :=
  fun w =>
    match body w with
    | (Ok a, w') => (Ok a, w')
    | (Raise e, w') => handler e w'
    end.

Declare Scope page_scope.
Delimit Scope page_scope with page.
Notation "x <- m ;; k" := (bind m (fun x => k))
  (at level 61, m at next level, right associativity) : page_scope.
Notation "m ;; k" := (bind m (fun _ => k))
  (at level 61, right associativity) : page_scope.

(** A Streamlit call that only draws *)
Definition emit (e : ui_event) : M unit :=
  fun w => (Ok tt, mkWorld (chat_msgs w) (screen w ++ [e])%list).

(** [if "chat_msgs" not in st.session_state: st.session_state.chat_msgs = []] *)
Definition init_chat : M unit :=
  fun w =>
    match chat_msgs w with
    | Some _ => (Ok tt, w)
    | None => (Ok tt, mkWorld (Some []) (screen w))
    end.

(** Reading [st.session_state.chat_msgs]; the attribute of an absent key
    raises. *)
Definition get_chat : M (list turn) :=
  fun w =>
    match chat_msgs w with
    | Some l => (Ok l, w)
    | None =>
        (Raise (Exn "AttributeError"
                  "st.session_state has no attribute chat_msgs"), w)
    end.

(** [st.session_state.chat_msgs.append(t)] *)
Definition append_chat (t : turn) : M unit :=
  fun w =>
    match chat_msgs w with
    | Some l => (Ok tt, mkWorld (Some (l ++ [t])%list) (screen w))
    | None =>
        (Raise (Exn "AttributeError"
                  "st.session_state has no attribute chat_msgs"), w)
    end.

(** [for x in xs: body(x)] *)
Fixpoint for_each {A : Type} (xs : list A) (body : A -> M unit) : M unit :=
  match xs with
  | [] => ret tt
  | x :: xs' => bind (body x) (fun _ => for_each xs' body)
  end.

(** ** The page script *)

(** [f"{n:,}"]: the decimal digits of [n] with a comma before every group
    of three. *)
Fixpoint group_thousands (digits : string) : string :=
  match digits with
  | EmptyString => EmptyString
  | String c rest =>
      let k := String.length rest in
      if Nat.ltb 0 k && Nat.eqb (k mod 3) 0
      then String c ("," ++ group_thousands rest)
      else String c (group_thousands rest)
  end.

Definition with_commas (n : nat) : string := group_thousands (PyStr.of_nat n).

Definition newline : string := String (ascii_of_nat 10) EmptyString.

(** What the user did on the page before a run: the position picked in
    each selectbox (0 until the user picks) and the text submitted in the
    chat input, if any. *)
Record inputs : Type := mkInputs {
  pick_product : nat;
  pick_model : nat;
  user_q : option string
}.

Definition all_products : value := VStr "All Products".

Definition models : list string :=
  ["mistral-large2"; "snowflake-arctic"; "llama3-70b"].

Definition system : string :=
  "You are a helpful Snowflake data assistant. "
  ++ "When asked for metrics, provide a concise Snowflake SQL the user could run. "
  ++ "Use the table name REVIEWS_WITH_SENTIMENT and existing column names.".

(** [row[i] = f(row[i])], a row too short for [i] left as it is *)
Fixpoint update_at (i : nat) (f : cell -> cell) (row : list cell) {struct row}
  : list cell :=
  match row with
  | [] => []
  | c :: row' =>
      match i with
      | O => f c :: row'
      | S j => c :: update_at j f row'
      end
  end.

(** [df[name] = f(df[name])] *)
Definition map_column (name : string) (f : cell -> cell) (df : DataFrame)
  : DataFrame :=
  match index_of name (columns df) with
  | Some i => mkDF (columns df) (map (update_at i f) (rows df))
  | None => df
  end.

(** [df.iloc[0, 0]]: the first cell of the first row.  With two integers
    pandas reads the cell straight from the block of values, so on a table
    without rows the exception is the one of the array underneath. *)
Definition iloc_0_0 (df : DataFrame) : result cell :=
  match columns df, rows df with
  | _ :: _, row :: _ => Ok (cell_at 0 row)
  | _, _ =>
      Raise (Exn "IndexError"
               "index 0 is out of bounds for axis 0 with size 0")
  end.

Section Page.

(** The parts of the environment the script calls:
    - [parse_number]: how pandas reads a text as a finite number, [None]
      when the text is not a number;
    - [to_datetime]: [pd.to_datetime(errors="coerce")] on one cell, for the
      columns on which the call returns;
    - [run_sql]: [session.sql(q).to_pandas()] during this run, which
      returns a table or raises. *)
Variable parse_number : string -> option Q.
Variable to_datetime : cell -> cell.
Variable run_sql : string -> result DataFrame.

(** [pd.to_numeric(x, errors="coerce")] on one cell: a number is kept, a
    text is read as a number or becomes missing, a missing cell stays
    missing. *)
Definition to_numeric (c : cell) : option Q :=
  match c with
  | Some (VNum q) => Some q
  | Some (VStr t) => parse_number t
  | None => None
  end.

(** A row counts when its score, coerced, is a number. *)
Definition has_score (df : DataFrame) (row : list cell) : bool :=
  match to_numeric (field "SENTIMENT_SCORE" df row) with
  | Some _ => true
  | None => false
  end.

(** The score of a row that counts *)
Definition score (df : DataFrame) (row : list cell) : Q :=
  match to_numeric (field "SENTIMENT_SCORE" df row) with
  | Some q => q
  | None => 0%Q
  end.

(** [cortex_complete(model, prompt)] *)
Definition cortex_complete (model prompt : string) : result cell :=
  rbind (run_sql (cortex_sql model prompt)) iloc_0_0.

(** The loop over the likely date columns *)
Definition parse_dates (df : DataFrame) : DataFrame :=
  fold_left
    (fun d c => if has_column c d then map_column c to_datetime d else d)
    ["REVIEW_DATE"; "SHIPPING_DATE"] df.

(** [df.assign(SENTIMENT_SCORE=to_numeric(...)).groupby("PRODUCT")
    ["SENTIMENT_SCORE"].mean()]: one entry per distinct present product,
    with the mean of the scores of its rows.  A row whose product is
    missing is in no group.  pandas lists the groups by key; the order is
    redone by [sort_values] and is left here as the order of first
    appearance. *)
Definition group_rows (df : DataFrame) (k : value) : list (list cell) :=
  filter (fun row => cell_is k (field "PRODUCT" df row)) (rows df).

Definition group_scores (df : DataFrame) (k : value) : list (option Q) :=
  map (fun row => to_numeric (field "SENTIMENT_SCORE" df row))
    (group_rows df k).

Definition groupby_mean (df : DataFrame) : list (value * option Q) :=
  map (fun k => (k, mean (group_scores df k)))
    (unique (dropna (column "PRODUCT" df))).

Definition product_sent (df : DataFrame) : list (value * option Q) :=
  sort_values (groupby_mean df).

Local Open Scope page_scope.

(** Average Sentiment by Product *)
Definition average_sentiment_by_product (df_reviews : DataFrame) : M unit :=
  emit (subheader "Average Sentiment by Product");;
  if has_column "PRODUCT" df_reviews
     && has_column "SENTIMENT_SCORE" df_reviews
  then
    if Nat.ltb 0 (List.length (product_sent df_reviews))
    then emit (bar_chart_means (product_sent df_reviews))
    else emit (info "No sentiment scores to aggregate.")
  else emit (info "Need columns PRODUCT and SENTIMENT_SCORE for this chart.").

(** The option list of the product selectbox *)
Definition product_options (df_reviews : DataFrame) : result (list value) :=
  rbind (sorted (unique (dropna (column "PRODUCT" df_reviews))))
    (fun l => Ok (all_products :: l)).

(** Product filter: returns [(product, filtered)] *)
Definition filter_by_product (inp : inputs) (df_reviews : DataFrame)
  : M (value * DataFrame) :=
  emit (subheader "Filter by Product");;
  if has_column "PRODUCT" df_reviews
  then
    opts <- lift (product_options df_reviews);;
    emit (selectbox "Choose a product" opts);;
    let product := nth (pick_product inp) opts all_products in
    if negb (value_eqb product all_products)
    then ret (product, select_rows "PRODUCT" product df_reviews)
    else ret (product, df_reviews)
  else
    emit (warning "PRODUCT column not found; showing all rows.");;
    ret (all_products, df_reviews).

(** [s = pd.to_numeric(filtered["SENTIMENT_SCORE"], errors="coerce").dropna()] *)
Definition scores (filtered : DataFrame) : list Q :=
  dropna (map to_numeric (column "SENTIMENT_SCORE" filtered)).

(** The histogram drawn for a non-empty [s] *)
Definition hist (s : list Q) : list ((Q * Q) * nat) :=
  cut_counts s (Z.to_nat (bins (Z.of_nat (List.length s)))).

(** Sentiment score histogram *)
Definition sentiment_score_distribution (product : value)
  (filtered : DataFrame) : M unit :=
  emit (subheader_of "Sentiment Score Distribution (" product ")");;
  if has_column "SENTIMENT_SCORE" filtered
  then
    let s := scores filtered in
    if Nat.ltb 0 (List.length s)
    then emit (bar_chart_hist (hist s))
    else emit (info "No numeric SENTIMENT_SCORE values to plot.")
  else emit (info "SENTIMENT_SCORE column not found.").

(** [context]: the column names and the row count of the whole table *)
Definition context (df_reviews : DataFrame) : string :=
  "Table REVIEWS_WITH_SENTIMENT has columns: "
  ++ PyStr.join ", " (columns df_reviews)
  ++ ". Total rows: " ++ PyStr.of_nat (len df_reviews) ++ ".".

Definition prompt (df_reviews : DataFrame) (q : string) : string :=
  system ++ newline ++ newline ++ "Context: " ++ context df_reviews
  ++ newline ++ newline ++ "User: " ++ q ++ newline ++ "Assistant:".

(** The body of [if user_q:], one chat turn *)
Definition chat_turn (model : string) (df_reviews : DataFrame) (q : string)
  : M unit :=
  append_chat ("user", Some (VStr q));;
  emit (chat_message "user" (Some (VStr q)));;
  reply <- try_except
             (lift (cortex_complete model (prompt df_reviews q)))
             (fun e =>
                ret (Some (VStr ("Sorry, Cortex call failed: " ++ exn_text e))));;
  emit (chat_message "assistant" reply);;
  append_chat ("assistant", reply).

(** Cortex chatbox *)
Definition cortex_chatbox (inp : inputs) (df_reviews : DataFrame) : M unit :=
  emit (markdown "---");;
  emit (header "💬 Avalanche Assistant (Cortex)");;
  emit (selectbox "Cortex model" (map VStr models));;
  let model := nth (pick_model inp) models "mistral-large2" in
  init_chat;;
  msgs <- get_chat;;
  for_each msgs (fun t => emit (chat_message (fst t) (snd t)));;
  emit (chat_input "Ask a question (I can also draft Snowflake SQL)");;
  match user_q inp with
  | Some q =>
      if String.eqb q EmptyString then ret tt
      else chat_turn model df_reviews q
  | None => ret tt
  end.

(** One run of the script, top to bottom *)
Definition page (inp : inputs) : M unit :=
  emit (title "Avalanche Streamlit App (Cloud)");;
  df <- lift (run_sql "SELECT * FROM REVIEWS_WITH_SENTIMENT");;
  let df_reviews := parse_dates df in
  emit (caption ("Loaded " ++ with_commas (len df_reviews)
                 ++ " rows from REVIEWS_WITH_SENTIMENT"));;
  average_sentiment_by_product df_reviews;;
  pf <- filter_by_product inp df_reviews;;
  emit (subheader_of "📁 Reviews for " (fst pf) "");;
  emit (dataframe (snd pf));;
  sentiment_score_distribution (fst pf) (snd pf);;
  cortex_chatbox inp df_reviews.

End Page.

(** ** Reruns *)

(** One interaction: what the user did, and how the database answers during
    the run it triggers. *)
Record interaction : Type := mkInteraction {
  act : inputs;
  backend : string -> result DataFrame
}.

Section Session.

Variable parse_number : string -> option Q.
Variable to_datetime : cell -> cell.

(** Streamlit reruns the script on every interaction: the screen starts
    empty, [st.session_state] is kept. *)
Definition rerun (i : interaction) (w : world) : result unit * world :=
  page parse_number to_datetime (backend i) (act i)
    (mkWorld (chat_msgs w) []).

(** The world after a sequence of interactions; a run that raises stops
    there and the next interaction starts a new run. *)
Definition interact (steps : list interaction) (w : world) : world :=
  fold_left (fun w' i => snd (rerun i w')) steps w.

End Session.

(** ** Vocabulary of the statements *)

(** The events that are charts *)
Definition is_chart (e : ui_event) : bool :=
  match e with
  | bar_chart_means _ | bar_chart_hist _ => true
  | _ => false
  end.

(** The events that are chat messages *)
Definition is_bubble (e : ui_event) : bool :=
  match e with
  | chat_message _ _ => true
  | _ => false
  end.

(** [a] is strictly below [b]: Python's [a < b] is defined and true. *)
Definition below (a b : value) : Prop := value_lt a b = Ok true.

(** A list in strictly ascending order; no two of its entries are equal. *)
Definition ascending (l : list value) : Prop := Sorted below l.

(** No entry of the list equals a later one. *)
Fixpoint distinct (l : list value) : Prop :=
  match l with
  | [] => True
  | x :: l' => (forall y, In y l' -> value_eqb y x = false) /\ distinct l'
  end.

(** Text or number *)
Definition is_text (v : value) : bool :=
  match v with VStr _ => true | VNum _ => false end.

(** The number of bins of a grid that hold [x] *)
Definition hits (ivs : list (Q * Q)) (x : Q) : nat :=
  list_sum (map (fun iv => if in_bin iv x then 1 else 0) ivs).

(** A cell of the score column with every entry that is not a number made
    missing, and the table with its score column so rewritten. *)
Definition as_missing (parse_number : string -> option Q) (c : cell) : cell :=
  match to_numeric parse_number c with
  | Some _ => c
  | None => None
  end.

Definition blanked (parse_number : string -> option Q) (df : DataFrame)
  : DataFrame :=
  map_column "SENTIMENT_SCORE" (as_missing parse_number) df.

(** The stored conversation; empty until the key is set. *)
Definition history (w : world) : list turn :=
  match chat_msgs w with
  | Some l => l
  | None => []
  end.

(** The drawing of one turn *)
Definition bubble (t : turn) : ui_event := chat_message (fst t) (snd t).

(** The reply the handler stores for an exception *)
Definition apology (e : exn) : cell :=
  Some (VStr ("Sorry, Cortex call failed: " ++ exn_text e)).

(** The turns one run of the chat box adds: none without a submitted text,
    else the user's text and the reply, which is the completion or the
    apology for its exception. *)
Definition new_turns (run_sql : string -> result DataFrame) (inp : inputs)
  (df_reviews : DataFrame) : list turn :=
  match user_q inp with
  | Some q =>
      if String.eqb q EmptyString then []
      else
        [("user", Some (VStr q));
         ("assistant",
          match cortex_complete run_sql
                  (nth (pick_model inp) models "mistral-large2")
                  (prompt df_reviews q) with
          | Ok c => c
          | Raise e => apology e
          end)]
  | None => []
  end.

(** The number of turns of a role in a conversation *)
Definition count_role (role : string) (l : list turn) : nat :=
  List.length (filter (fun t => String.eqb (fst t) role) l).

(** A computation that only draws: from every world it gives the same
    result and adds the same events, and leaves the session state alone. *)
Definition draws {A : Type} (m : M A) (r : result A) (evs : list ui_event)
  : Prop :=
  forall w, m w = (r, mkWorld (chat_msgs w) (screen w ++ evs)%list).

(** The world of a new session: no key in the session state, an empty
    screen. *)
Definition empty_world : world := mkWorld None [].

(** The turns an interaction adds, read off a run from the empty session *)
Definition appended (parse_number : string -> option Q)
  (to_datetime : cell -> cell) (i : interaction) : list turn :=
  history (snd (rerun parse_number to_datetime i empty_world)).

(** ** Sample inputs *)

(** A reader of numbers that reads no text as a number *)
Definition no_numbers (t : string) : option Q := None.

(** A reader of numbers that reads the two texts "0.5" and "3" *)
Definition parse_sample (t : string) : option Q :=
  if String.eqb t "0.5" then Some (1 # 2)%Q
  else if String.eqb t "3" then Some 3%Q
  else None.

(** A date conversion that leaves the cell as it is *)
Definition keep (c : cell) : cell := c.

(** Five reviews: two products spelled alike up to case, a row without
    product, a score that is not a number. *)
Definition reviews_sample : DataFrame :=
  mkDF ["PRODUCT"; "SENTIMENT_SCORE"]
    [[Some (VStr "Skis"); Some (VNum (1 # 2))];
     [Some (VStr "Boots"); Some (VStr "n/a")];
     [None; Some (VNum (3 # 4))];
     [Some (VStr "boots"); Some (VNum (1 # 4))];
     [Some (VStr "Skis"); Some (VNum (-1 # 2))]].

(** Four reviews: the scores of Boots are a number, a text that is not a
    number and a text that is one; the only score of Skis is not a number. *)
Definition scores_sample : DataFrame :=
  mkDF ["PRODUCT"; "SENTIMENT_SCORE"]
    [[Some (VStr "Boots"); Some (VNum 1)];
     [Some (VStr "Boots"); Some (VStr "n/a")];
     [Some (VStr "Boots"); Some (VStr "3")];
     [Some (VStr "Skis"); Some (VStr "oops")]].

(** A database that serves the reviews and fails every completion *)
Definition failing_backend (q : string) : result DataFrame :=
  if PyStr.startswith q "SELECT *" then Ok reviews_sample
  else Raise (Exn "SnowparkSQLException" "model unavailable").

(** A database that serves the reviews and answers every completion with
    [reply] *)
Definition answering (reply : string) (q : string) : result DataFrame :=
  if PyStr.startswith q "SELECT *" then Ok reviews_sample
  else Ok (mkDF ["RESP"] [[Some (VStr reply)]]).

(** ** The Snowflake session *)

(** [st.secrets] as read from a secrets file that exists: sections of keys
    and values.  A missing section or key raises [KeyError]; the text
    Streamlit puts in the exception is not modelled, the exception carries
    the name that was looked up.  Without any secrets file Streamlit raises
    an error of its own, which is not modelled. *)
Definition secrets_t : Type := list (string * list (string * string)).

Fixpoint lookup {A : Type} (k : string) (l : list (string * A)) : option A :=
  match l with
  | [] => None
  | (k', a) :: l' => if String.eqb k k' then Some a else lookup k l'
  end.

Definition key_error (k : string) : exn := Exn "KeyError" k.

(** [st.secrets[section][k]] *)
Definition secret (secrets : secrets_t) (section k : string) : result string :=
  match lookup section secrets with
  | None => Raise (key_error section)
  | Some entries =>
      match lookup k entries with
      | None => Raise (key_error k)
      | Some v => Ok v
      end
  end.

(** The keys of the dict [conn], in the order the literal evaluates them *)
Definition conn_keys : list string :=
  ["account"; "user"; "password"; "role"; "warehouse"; "database"; "schema"].

(** The dict literal [conn = {k: st.secrets["snowflake"][k], ...}] *)
Fixpoint read_conn (secrets : secrets_t) (keys : list string)
  : result (list (string * string)) :=
  match keys with
  | [] => Ok []
  | k :: keys' =>
      rbind (secret secrets "snowflake" k) (fun v =>
        rbind (read_conn secrets keys') (fun rest => Ok ((k, v) :: rest)))
  end.

Section Bootstrap.

(** The session object, and the two ways to one:
    - [get_active_session]: the import and the call inside [try], which
      return a session (or [None]) or raise;
    - [create]: the import of [Session] on line 17 and, once [conn] is
      read, [Session.builder.configs(conn).create()]; it returns a session
      or raises.  In the source the import runs before the secrets are
      read: a failing import is a [create] that raises on every argument,
      and the exception [connect] gives for a missing secret is the one of
      the script when the import succeeds. *)
Variable session_t : Type.
Variable get_active_session : result (option session_t).
Variable create : list (string * string) -> result session_t.

(** Lines 7 to 27: the active session when there is one, else a session
    built from the secrets. *)
Definition connect (secrets : secrets_t) : result session_t :=
  let session :=
    match get_active_session with
    | Ok s => s
    | Raise _ => None
    end in
  match session with
  | Some s => Ok s
  | None => rbind (read_conn secrets conn_keys) create
  end.

End Bootstrap.


(** ** More vocabulary *)

(** [s] with the prefix [p] taken off, when it starts with it *)
Fixpoint strip_prefix (p s : string) {struct p} : option string :=
  match p with
  | EmptyString => Some s
  | String a p' =>
      match s with
      | EmptyString => None
      | String b s' => if Ascii.eqb a b then strip_prefix p' s' else None
      end
  end.

(** How a SQL reader takes the statement of [cortex_complete] apart: the
    call, a literal, a comma, a literal, the closing of the call.  The
    result is the two texts of the literals. *)
Definition parse_call (sql : string) : option (string * string) :=
  match strip_prefix sql_head sql with
  | None => None
  | Some s1 =>
      match read_literal s1 with
      | None => None
      | Some (m, s2) =>
          match strip_prefix ", '" s2 with
          | None => None
          | Some s3 =>
              match read_literal s3 with
              | None => None
              | Some (p, s4) =>
                  if String.eqb s4 ") AS RESP" then Some (m, p) else None
              end
          end
      end
  end.

(** Snowflake reads more in a single-quoted literal than the doubled quote:
    a backslash starts an escape and takes the next character with it, so a
    quote right after a backslash does not close the literal.  What the
    escape stands for ([escape d] for the character [d] after the backslash:
    the quote itself, a newline for [n], the character alone where Snowflake
    ignores the backslash, ...) is left open; the octal and hexadecimal
    escapes take more characters, none of them a quote or a backslash, and
    have the same ends of literal. *)
Definition backslash : ascii := "\"%char.

Section Snowflake.

Variable escape : ascii -> string.

Fixpoint snowflake_literal (s : string) : option (string * string) :=
  match s with
  | EmptyString => None
  | String c s' =>
      if Ascii.eqb c backslash
      then match s' with
           | String d s'' =>
               match snowflake_literal s'' with
               | Some (t, r) => Some (escape d ++ t, r)
               | None => None
               end
           | EmptyString => None
           end
      else if Ascii.eqb c apostrophe
      then match s' with
           | String c' s'' =>
               if Ascii.eqb c' apostrophe
               then match snowflake_literal s'' with
                    | Some (t, r) => Some (String apostrophe t, r)
                    | None => None
                    end
               else Some (EmptyString, s')
           | EmptyString => Some (EmptyString, EmptyString)
           end
      else match snowflake_literal s' with
           | Some (t, r) => Some (String c t, r)
           | None => None
           end
  end.

(** The statement of [cortex_complete] as Snowflake takes it apart *)
Definition snowflake_call (sql : string) : option (string * string) :=
  match strip_prefix sql_head sql with
  | None => None
  | Some s1 =>
      match snowflake_literal s1 with
      | None => None
      | Some (m, s2) =>
          match strip_prefix ", '" s2 with
          | None => None
          | Some s3 =>
              match snowflake_literal s3 with
              | None => None
              | Some (p, s4) =>
                  if String.eqb s4 ") AS RESP" then Some (m, p) else None
              end
          end
      end
  end.

End Snowflake.

(** A text without comma *)
Fixpoint comma_free (s : string) : bool :=
  match s with
  | EmptyString => true
  | String c s' => negb (Ascii.eqb c ","%char) && comma_free s'
  end.

(** A series in the order of [sort_values]: each mean at most the next, the
    missing means last. *)
Definition mean_ordered (l : list (value * option Q)) : Prop :=
  Sorted (fun a b => mean_leb (snd a) (snd b) = true) l.

(** A conversation made of exchanges: a user turn, then an assistant
    turn, and so on. *)
Fixpoint exchanges (l : list turn) : Prop :=
  match l with
  | [] => True
  | u :: rest =>
      match rest with
      | [] => False
      | a :: l' => fst u = "user" /\ fst a = "assistant" /\ exchanges l'
      end
  end.

(** The query that loads the reviews *)
Definition load_query : string := "SELECT * FROM REVIEWS_WITH_SENTIMENT".

(** A table with a product column that mixes text and number *)
Definition mixed_sample : DataFrame :=
  mkDF ["PRODUCT"; "SENTIMENT_SCORE"]
    [[Some (VStr "Boots"); Some (VNum (1 # 2))];
     [Some (VNum 7); Some (VNum (1 # 4))]].

(** Secrets with the seven keys and one more *)
Definition secrets_sample : secrets_t :=
  [("snowflake",
    [("account", "acme"); ("user", "ann"); ("password", "pw");
     ("role", "analyst"); ("warehouse", "wh"); ("database", "db");
     ("schema", "public"); ("region", "eu")])].

(** * Properties *)

(** ** The escaping step *)

Lemma ascii_eqb_sym (a b : ascii) : Ascii.eqb a b = Ascii.eqb b a.
Proof.
  destruct (Ascii.eqb_spec a b) as [->|Hab].
  - now rewrite Ascii.eqb_refl.
  - destruct (Ascii.eqb_spec b a) as [->|_]; [now elim Hab | reflexivity].
Qed.

Lemma replace_quote_step (c : ascii) (s : string) :
  PyStr.replace_from 0 "'" "''" (String c s)
  = if Ascii.eqb c apostrophe
    then String apostrophe
           (String apostrophe (PyStr.replace_from 0 "'" "''" s))
    else String c (PyStr.replace_from 0 "'" "''" s).
Proof.
  cbn [PyStr.replace_from PyStr.startswith].
  rewrite (ascii_eqb_sym _ c), andb_true_r.
  fold apostrophe. destruct (Ascii.eqb c apostrophe); reflexivity.
Qed.

Lemma safe_cons (c : ascii) (s : string) :
  safe (String c s)
  = if Ascii.eqb c apostrophe
    then String apostrophe (String apostrophe (safe s))
    else String c (safe s).
Proof. apply replace_quote_step. Qed.

Lemma length_append (s t : string) :
  String.length (s ++ t) = String.length s + String.length t.
Proof. induction s as [|c s IH]; simpl; [reflexivity | now rewrite IH]. Qed.

Lemma safe_is_doubling (prompt : string) :
  safe prompt = spec_double_quotes prompt.
Proof.
  induction prompt as [|c s IH]; [reflexivity|].
  rewrite safe_cons. cbn [spec_double_quotes].
  destruct (Ascii.eqb c apostrophe); now rewrite IH.
Qed.

Lemma length_spec_double_quotes (s : string) :
  String.length (spec_double_quotes s)
  = String.length s + PyStr.count_char apostrophe s.
Proof.
  induction s as [|c s IH]; [reflexivity|].
  cbn [spec_double_quotes PyStr.count_char String.length].
  destruct (Ascii.eqb c apostrophe); cbn [String.length]; rewrite IH; lia.
Qed.

(** C3.  The escaping step of [cortex_complete] returns the prompt with each
    single quote replaced by two single quotes and every other character
    unchanged; the result is longer than the prompt by its number of single
    quotes. *)
Theorem safe_doubles_every_quote (prompt : string) :
  safe prompt = spec_double_quotes prompt
  /\ String.length (safe prompt)
     = String.length prompt + PyStr.count_char apostrophe prompt.
Proof.
  split; [apply safe_is_doubling|].
  rewrite safe_is_doubling. apply length_spec_double_quotes.
Qed.

(** A SQL reader gets the prompt back from its escaped literal, whatever
    follows the closing quote, as long as that is not another quote. *)
Lemma read_literal_safe (p rest : string) :
  PyStr.startswith rest "'" = false ->
  read_literal (safe p ++ String apostrophe rest) = Some (p, rest).
Proof.
  intros Hrest. induction p as [|c s IH].
  - change (safe EmptyString) with EmptyString.
    cbn [append read_literal]. rewrite Ascii.eqb_refl.
    destruct rest as [|r rest']; [reflexivity|].
    cbn [PyStr.startswith] in Hrest.
    rewrite andb_true_r, ascii_eqb_sym in Hrest.
    fold apostrophe in Hrest. now rewrite Hrest.
  - rewrite safe_cons. destruct (Ascii.eqb c apostrophe) eqn:Hc.
    + apply Ascii.eqb_eq in Hc. subst c.
      cbn [append read_literal]. rewrite Ascii.eqb_refl.
      now rewrite IH.
    + cbn [append read_literal]. rewrite Hc. now rewrite IH.
Qed.

Lemma append_assoc (a b c : string) : (a ++ b) ++ c = a ++ (b ++ c).
Proof. induction a as [|x a IH]; simpl; [reflexivity | now rewrite IH]. Qed.

Lemma drop_append (a b : string) : PyStr.drop (String.length a) (a ++ b) = b.
Proof. induction a as [|x a IH]; simpl; [now destruct b | exact IH]. Qed.

(** C10.  Only the prompt is escaped.  In the statement built by
    [cortex_complete] the model name stands verbatim right after the
    opening quote of the first literal (offset 34), the prompt stands in its
    doubled form, and a SQL reader gets the prompt back from the second
    literal; for the model name [a'b] the quote is in the statement with a
    character that is not a quote on either side, and the first literal
    read back is [a], not the model name. *)
Theorem model_embedded_verbatim :
  (forall model prompt,
      cortex_sql model prompt
      = sql_head ++ model ++ "', '" ++ spec_double_quotes prompt ++ "') AS RESP")
  /\ (forall model prompt,
         PyStr.drop 34 (cortex_sql model prompt)
         = model ++ "', '" ++ safe prompt ++ "') AS RESP")
  /\ (forall model prompt,
         read_literal
           (PyStr.drop (34 + String.length model + 4) (cortex_sql model prompt))
         = Some (prompt, ") AS RESP"))
  /\ (exists model,
         PyStr.count_char apostrophe model = 1
         /\ forall prompt,
             String.get 34 (cortex_sql model prompt) = Some "a"%char
             /\ String.get 35 (cortex_sql model prompt) = Some apostrophe
             /\ String.get 36 (cortex_sql model prompt) = Some "b"%char
             /\ read_literal (PyStr.drop 34 (cortex_sql model prompt))
                = Some ("a", "b', '" ++ safe prompt ++ "') AS RESP")).
Proof.
  split; [|split; [|split]].
  - intros model prompt. unfold cortex_sql.
    now rewrite (safe_is_doubling prompt).
  - intros model prompt. reflexivity.
  - intros model prompt.
    replace (cortex_sql model prompt)
      with ((sql_head ++ model ++ "', '") ++ safe prompt ++ "') AS RESP").
    2:{ unfold cortex_sql. now rewrite !append_assoc. }
    replace (34 + String.length model + 4)
      with (String.length (sql_head ++ model ++ "', '")).
    2:{ rewrite !length_append. cbn. lia. }
    rewrite drop_append.
    apply (read_literal_safe prompt ") AS RESP"). reflexivity.
  - exists "a'b". split; [reflexivity|].
    intros prompt. repeat split; reflexivity.
Qed.

(** ** The bin count *)

Lemma bins_between_5_and_40 (n : Z) : (5 <= bins n <= 40)%Z.
Proof. unfold bins. lia. Qed.

Lemma sqrt_between (n : Z) :
  (0 <= n)%Z ->
  (IZR (Z.sqrt n) <= sqrt (IZR n) < IZR (Z.sqrt n) + 1)%R.
Proof.
  intros Hn.
  destruct (Z.sqrt_spec n Hn) as [Hlo Hhi].
  pose proof (Z.sqrt_nonneg n) as Hk.
  set (k := Z.sqrt n) in *.
  assert (Hk0 : (0 <= IZR k)%R) by now apply IZR_le.
  split.
  - rewrite <- (sqrt_square (IZR k)) at 1 by exact Hk0.
    apply sqrt_le_1_alt. rewrite <- mult_IZR. now apply IZR_le.
  - replace (IZR k + 1)%R with (IZR (Z.succ k)) by (rewrite succ_IZR; ring).
    rewrite <- (sqrt_square (IZR (Z.succ k))) by (apply IZR_le; lia).
    apply sqrt_lt_1_alt. split; [now apply IZR_le|].
    rewrite <- mult_IZR. now apply IZR_lt.
Qed.

(** The line of the source read on the reals computes [bins]. *)
Lemma bins_real_eq (n : Z) : (0 <= n)%Z -> bins_real n = bins n.
Proof.
  intros Hn. symmetry. unfold bins_real, bins.
  destruct (sqrt_between n Hn) as [Hlo Hhi].
  pose proof (Z.sqrt_nonneg n) as Hk.
  set (k := Z.sqrt n) in *. set (x := sqrt (IZR n)) in *.
  apply Int_part_spec.
  destruct (Z_lt_le_dec k 5) as [Hk5|Hk5].
  - assert (Hx : (x < 5)%R).
    { apply Rlt_le_trans with (IZR k + 1)%R; [exact Hhi|].
      replace (IZR k + 1)%R with (IZR (k + 1)) by (rewrite plus_IZR; ring).
      apply IZR_le. lia. }
    rewrite (Rmin_right 40 x) by lra. rewrite (Rmax_left 5 x) by lra.
    replace (Z.max 5 (Z.min 40 k)) with 5%Z by lia. lra.
  - destruct (Z_lt_le_dec k 40) as [Hk40|Hk40].
    + assert (Hx5 : (5 <= x)%R).
      { apply Rle_trans with (IZR k); [apply IZR_le; lia | exact Hlo]. }
      assert (Hx40 : (x < 40)%R).
      { apply Rlt_le_trans with (IZR k + 1)%R; [exact Hhi|].
        replace (IZR k + 1)%R with (IZR (k + 1)) by (rewrite plus_IZR; ring).
        apply IZR_le. lia. }
      rewrite (Rmin_right 40 x) by lra. rewrite (Rmax_right 5 x) by lra.
      replace (Z.max 5 (Z.min 40 k)) with k by lia. lra.
    + assert (Hx40 : (40 <= x)%R).
      { apply Rle_trans with (IZR k); [apply IZR_le; lia | exact Hlo]. }
      rewrite (Rmin_left 40 x) by lra. rewrite (Rmax_right 5 40) by lra.
      replace (Z.max 5 (Z.min 40 k)) with 40%Z by lia. lra.
Qed.

(** On binary64 the line computes [bins] too: checked for every sample size
    up to 5000 (from 1600 on the value is the upper bound 40) and for
    10000. *)
Lemma bins_binary64_eq :
  forallb (fun i => Z.eqb (bins_binary64 (Z.of_nat i)) (bins (Z.of_nat i)))
    (seq 1 5000) = true
  /\ bins_binary64 10000 = bins 10000.
Proof. split; vm_compute; reflexivity. Qed.

(** [spec_round_sqrt n] is the integer nearest to the root of [n]: twice the
    root lies strictly between [2 r - 1] and [2 r + 1]. *)
Lemma spec_round_sqrt_nearest (n : Z) :
  (1 <= n)%Z ->
  let r := spec_round_sqrt n in
  ((2 * r - 1) * (2 * r - 1) < 4 * n < (2 * r + 1) * (2 * r + 1))%Z.
Proof.
  intros Hn. unfold spec_round_sqrt.
  destruct (Z.sqrt_spec n ltac:(lia)) as [Hlo Hhi].
  pose proof (Z.sqrt_nonneg n) as Hk.
  set (k := Z.sqrt n) in *. cbv zeta.
  assert (Hk1 : (1 <= k)%Z) by nia.
  destruct (Z.leb_spec n (k * k + k)); nia.
Qed.

Lemma length_intervals (edges : list Q) :
  List.length (intervals edges) = List.length edges - 1.
Proof.
  induction edges as [|a rest IH]; [reflexivity|].
  destruct rest as [|b rest']; [reflexivity|].
  cbn [intervals List.length] in *. lia.
Qed.

Lemma length_linspace (lo hi : Q) (n : nat) :
  List.length (linspace lo hi n) = S n.
Proof.
  destruct n as [|m]; [reflexivity|].
  unfold linspace.
  rewrite length_app, length_map, length_seq. cbn. lia.
Qed.

Lemma length_bin_edges (x : Q) (xs : list Q) (n : nat) :
  List.length (bin_edges x xs n) = S n.
Proof.
  unfold bin_edges.
  destruct (Qeq_bool _ _); [apply length_linspace|].
  pose proof (length_linspace (series_min x xs) (series_max x xs) n) as H.
  destruct (linspace _ _ n); cbn in *; lia.
Qed.

(** The histogram has as many bars as [pd.cut] was given bins. *)
Lemma length_cut_counts (s : list Q) (n : nat) :
  s <> [] -> List.length (cut_counts s n) = n.
Proof.
  destruct s as [|x xs]; [congruence|]. intros _.
  unfold cut_counts.
  rewrite length_map, length_intervals, length_bin_edges. lia.
Qed.

Lemma length_hist (s : list Q) :
  s <> [] -> Z.of_nat (List.length (hist s)) = bins (Z.of_nat (List.length s)).
Proof.
  intros Hs. unfold hist. rewrite length_cut_counts by exact Hs.
  pose proof (bins_between_5_and_40 (Z.of_nat (List.length s))). lia.
Qed.

(** Where the truncation of the source and the rounding of the spec meet:
    below 31 values and from 1600 on both give the bound, in between they
    agree exactly when the root is in the lower half of its unit interval. *)
Lemma bins_eq_spec_bins_iff (n : Z) :
  (1 <= n)%Z ->
  bins n = spec_bins n
  <-> (n <= 30 \/ 1600 <= n \/ n <= Z.sqrt n * Z.sqrt n + Z.sqrt n)%Z.
Proof.
  intros Hn. unfold bins, spec_bins, spec_round_sqrt.
  destruct (Z.sqrt_spec n ltac:(lia)) as [Hlo Hhi].
  pose proof (Z.sqrt_nonneg n) as Hk.
  set (k := Z.sqrt n) in *. cbv zeta.
  destruct (Z.leb_spec n (k * k + k)) as [Hle|Hgt].
  - split; [intros _; right; right; exact Hle | reflexivity].
  - destruct (Z_lt_le_dec k 5) as [Hk5|Hk5].
    + split; [intros _; left; nia | intros _; lia].
    + destruct (Z_lt_le_dec k 40) as [Hk40|Hk40].
      * split; [intros H; lia | intros [H|[H|H]]; [nia | nia | lia]].
      * split; [intros _; right; left; nia | intros _; lia].
Qed.

(** C1 (as the code has it).  When the filtered table has the score column
    and at least one valid score, the histogram block draws one chart whose
    number of bars is [bins n] for [n] the number of valid scores; [bins n]
    is the integer part of the square root of [n] (the source truncates with
    [int], it does not round) clamped to [5, 40], so it lies between 5 and
    40; for [n] in 1, 24, 25, 26, 1600, 1601, 10000 this is also the root
    rounded to the nearest integer and clamped. *)
Theorem histogram_bin_count
  (parse_number : string -> option Q) (product : value)
  (filtered : DataFrame) (w : world) :
  has_column "SENTIMENT_SCORE" filtered = true ->
  scores parse_number filtered <> [] ->
  let s := scores parse_number filtered in
  let n := Z.of_nat (List.length s) in
  sentiment_score_distribution parse_number product filtered w
  = (Ok tt,
     mkWorld (chat_msgs w)
       (screen w
        ++ [subheader_of "Sentiment Score Distribution (" product ")";
            bar_chart_hist (hist s)])%list)
  /\ Z.of_nat (List.length (hist s)) = bins n
  /\ bins n = bins_real n
  /\ (exists k, k * k <= n < (k + 1) * (k + 1)
                /\ bins n = Z.max 5 (Z.min 40 k))%Z
  /\ (5 <= bins n <= 40)%Z
  /\ (In n [1; 24; 25; 26; 1600; 1601; 10000]%Z -> bins n = spec_bins n).
Proof.
  intros Hcol Hs s n.
  assert (Hlen : Nat.ltb 0 (List.length s) = true).
  { apply Nat.ltb_lt. subst s.
    destruct (scores parse_number filtered); [congruence | cbn; lia]. }
  repeat split.
  - unfold sentiment_score_distribution, bind, emit. cbn [chat_msgs screen].
    rewrite Hcol. fold s. rewrite Hlen. cbn [chat_msgs screen].
    now rewrite <- app_assoc.
  - now apply length_hist.
  - symmetry. apply bins_real_eq. lia.
  - exists (Z.sqrt n). split; [apply Z.sqrt_spec; lia | reflexivity].
  - apply bins_between_5_and_40.
  - apply bins_between_5_and_40.
  - intros Hin. cbn [In] in Hin.
    repeat (destruct Hin as [<-|Hin]; [reflexivity|]). contradiction.
Qed.

Lemma histogram_bin_count_witness :
  let filtered :=
    mkDF ["PRODUCT"; "SENTIMENT_SCORE"]
      [[Some (VStr "Boots"); Some (VNum (1 # 2))];
       [Some (VStr "Skis"); Some (VStr "n/a")];
       [Some (VStr "Boots"); Some (VNum (-1 # 4))]] in
  has_column "SENTIMENT_SCORE" filtered = true
  /\ scores no_numbers filtered = [(1 # 2)%Q; (-1 # 4)%Q]
  /\ List.length (hist (scores no_numbers filtered)) = 5.
Proof.
  intros filtered.
  assert (Hcol : has_column "SENTIMENT_SCORE" filtered = true) by reflexivity.
  assert (Hs : scores no_numbers filtered <> []) by (vm_compute; discriminate).
  pose proof (histogram_bin_count no_numbers all_products filtered empty_world
                Hcol Hs) as H.
  split; [exact Hcol|]. split; [reflexivity|].
  destruct H as (_ & Hlen & _).
  apply Nat2Z.inj. rewrite Hlen. reflexivity.
Defined.

(** C1, counterexample to the rounding: with 31 valid scores the chart has
    5 bars (the root of 31 is 5.57 and is truncated), while the root rounded
    to the nearest integer and clamped is 6. *)
Lemma histogram_31_scores_has_5_bins :
  let filtered :=
    mkDF ["SENTIMENT_SCORE"] (repeat [Some (VNum (1 # 2))] 31) in
  let s := scores no_numbers filtered in
  List.length s = 31
  /\ sentiment_score_distribution no_numbers all_products filtered empty_world
     = (Ok tt,
        mkWorld None
          [subheader_of "Sentiment Score Distribution (" all_products ")";
           bar_chart_hist (hist s)])
  /\ Z.of_nat (List.length (hist s)) = 5%Z
  /\ bins_binary64 31 = 5%Z
  /\ spec_bins (Z.of_nat (List.length s)) = 6%Z
  /\ Z.of_nat (List.length (hist s)) <> spec_bins (Z.of_nat (List.length s)).
Proof.
  intros filtered s.
  assert (Hs : List.length s = 31) by (vm_compute; reflexivity).
  assert (Hh : Z.of_nat (List.length (hist s)) = 5%Z)
    by (vm_compute; reflexivity).
  split; [exact Hs|].
  split; [vm_compute; reflexivity|].
  split; [exact Hh|].
  split; [vm_compute; reflexivity|].
  split; [rewrite Hs; reflexivity|].
  rewrite Hh, Hs. vm_compute. discriminate.
Qed.

(** ** Mean sentiment by product *)

Ltac run_block :=
  unfold bind, emit, ret, lift; cbn [chat_msgs screen fst snd];
  rewrite <- ?app_assoc; cbn [app].

Lemma length_insert_by_mean (x : value * option Q) (l : list (value * option Q)) :
  List.length (insert_by_mean x l) = S (List.length l).
Proof.
  induction l as [|y l IH]; [reflexivity|].
  cbn [insert_by_mean]. destruct (mean_leb _ _); cbn [List.length]; congruence.
Qed.

Lemma length_sort_values (l : list (value * option Q)) :
  List.length (sort_values l) = List.length l.
Proof.
  induction l as [|x l IH]; [reflexivity|].
  cbn [sort_values fold_right]. fold (sort_values l).
  now rewrite length_insert_by_mean, IH.
Qed.

Lemma unique_nil_iff (xs : list value) : unique xs = [] <-> xs = [].
Proof. destruct xs; cbn; split; congruence. Qed.

Lemma dropna_nil_iff {A : Type} (xs : list (option A)) :
  dropna xs = [] <-> forall x, In x xs -> x = None.
Proof.
  induction xs as [|[a|] xs IH]; cbn [dropna In].
  - split; [intros _ x [] | reflexivity].
  - split; [discriminate|].
    intros H. specialize (H (Some a) (or_introl eq_refl)). discriminate.
  - rewrite IH. split.
    + intros H x [<-|Hx]; [reflexivity | now apply H].
    + intros H x Hx. apply H. now right.
Qed.

(** The grouping has no group exactly when no row has a product. *)
Lemma product_sent_nil_iff (parse_number : string -> option Q) (df : DataFrame) :
  product_sent parse_number df = []
  <-> forall row, In row (rows df) -> field "PRODUCT" df row = None.
Proof.
  rewrite <- length_zero_iff_nil. unfold product_sent.
  rewrite length_sort_values. unfold groupby_mean. rewrite length_map.
  rewrite length_zero_iff_nil, unique_nil_iff, dropna_nil_iff.
  unfold column. split.
  - intros H row Hrow. apply H. now apply in_map.
  - intros H c Hc. apply in_map_iff in Hc. destruct Hc as (row & <- & Hrow).
    now apply H.
Qed.

(** C5.  When the table lacks the PRODUCT column or lacks the
    SENTIMENT_SCORE column, the mean-by-product block returns without
    raising, keeps the session state, and puts on the screen its heading and
    one notice, no chart. *)
Theorem average_sentiment_missing_column
  (parse_number : string -> option Q) (df_reviews : DataFrame) (w : world) :
  has_column "PRODUCT" df_reviews = false
  \/ has_column "SENTIMENT_SCORE" df_reviews = false ->
  exists drawn,
    average_sentiment_by_product parse_number df_reviews w
    = (Ok tt, mkWorld (chat_msgs w) (screen w ++ drawn)%list)
    /\ drawn
       = [subheader "Average Sentiment by Product";
          info "Need columns PRODUCT and SENTIMENT_SCORE for this chart."]
    /\ existsb is_chart drawn = false.
Proof.
  intros Hmissing. eexists. split; [|split; [reflexivity|reflexivity]].
  unfold average_sentiment_by_product.
  destruct Hmissing as [-> | ->]; rewrite ?andb_false_r; cbn [andb];
    run_block; reflexivity.
Qed.

Lemma average_sentiment_missing_column_witness :
  let df := mkDF ["REVIEW_ID"; "SENTIMENT_SCORE"]
              [[Some (VNum 1); Some (VNum (1 # 2))]] in
  has_column "PRODUCT" df = false
  /\ fst (average_sentiment_by_product no_numbers df empty_world) = Ok tt.
Proof.
  intros df.
  assert (H : has_column "PRODUCT" df = false) by reflexivity.
  split; [exact H|].
  destruct (average_sentiment_missing_column no_numbers df empty_world
              (or_introl H)) as (drawn & Hrun & _).
  rewrite Hrun. reflexivity.
Defined.



(** The converse holds as well: with at least one product the chart is
    drawn, whatever the scores are. *)
Lemma average_sentiment_some_group
  (parse_number : string -> option Q) (df_reviews : DataFrame) (w : world) :
  has_column "PRODUCT" df_reviews = true ->
  has_column "SENTIMENT_SCORE" df_reviews = true ->
  product_sent parse_number df_reviews <> [] ->
  average_sentiment_by_product parse_number df_reviews w
  = (Ok tt,
     mkWorld (chat_msgs w)
       (screen w ++ [subheader "Average Sentiment by Product";
                     bar_chart_means (product_sent parse_number df_reviews)])%list).
Proof.
  intros Hp Hs Hne.
  unfold average_sentiment_by_product. rewrite Hp, Hs.
  destruct (product_sent parse_number df_reviews) as [|g gs];
    [congruence|].
  cbn [andb List.length Nat.ltb Nat.leb]. run_block. reflexivity.
Qed.


(** ** Equality and order of values *)

Lemma value_eqb_refl (v : value) : value_eqb v v = true.
Proof.
  destruct v as [s|q]; cbn.
  - apply String.eqb_refl.
  - apply Qeq_bool_iff. reflexivity.
Qed.

Lemma value_eqb_sym (a b : value) : value_eqb a b = value_eqb b a.
Proof.
  destruct a as [x|x], b as [y|y]; cbn; try reflexivity.
  - apply String.eqb_sym.
  - destruct (Qeq_bool x y) eqn:Hxy, (Qeq_bool y x) eqn:Hyx; try reflexivity.
    + apply Qeq_bool_iff in Hxy. symmetry in Hxy.
      apply Qeq_bool_iff in Hxy. congruence.
    + apply Qeq_bool_iff in Hyx. symmetry in Hyx.
      apply Qeq_bool_iff in Hyx. congruence.
Qed.

Lemma value_eqb_trans (a b c : value) :
  value_eqb a b = true -> value_eqb b c = true -> value_eqb a c = true.
Proof.
  destruct a as [x|x], b as [y|y], c as [z|z]; cbn; try discriminate.
  - rewrite !String.eqb_eq. congruence.
  - rewrite !Qeq_bool_iff. intros -> ->. reflexivity.
Qed.

(** On text, [==] is equality character by character: case matters. *)
Lemma value_eqb_text (v : value) (p : string) :
  value_eqb v (VStr p) = true <-> v = VStr p.
Proof.
  destruct v as [s|q]; cbn.
  - rewrite String.eqb_eq. split; congruence.
  - split; discriminate.
Qed.

Lemma cell_is_text (c : cell) (p : string) :
  cell_is (VStr p) c = true <-> c = Some (VStr p).
Proof.
  destruct c as [v|]; cbn.
  - rewrite value_eqb_text. split; congruence.
  - split; discriminate.
Qed.

Lemma string_ltb_asym (x y : string) :
  String.ltb x y = true -> String.ltb y x = false.
Proof.
  unfold String.ltb. rewrite (String.compare_antisym y x).
  destruct (String.compare x y); cbn; congruence.
Qed.

Lemma string_ltb_total (x y : string) :
  String.ltb y x = false -> String.eqb y x = false -> String.ltb x y = true.
Proof.
  unfold String.ltb. rewrite (String.compare_antisym y x).
  destruct (String.compare x y) eqn:Hc; cbn; try congruence.
  apply String.compare_eq_iff in Hc. subst y.
  now rewrite String.eqb_refl.
Qed.

(** Inside one type the order is total: two values that are not equal and
    of which the first is not below the second are the other way round. *)
Lemma below_total (x y : value) :
  value_lt y x = Ok false -> value_eqb y x = false -> below x y.
Proof.
  unfold below. destruct x as [a|a], y as [b|b]; cbn; try discriminate.
  - intros [= H] He. now rewrite (string_ltb_total a b H He).
  - intros [= H] He. f_equal.
    apply negb_false_iff in H. apply Qle_bool_iff in H.
    apply negb_true_iff. destruct (Qle_bool b a) eqn:Hba; [|reflexivity].
    apply Qle_bool_iff in Hba.
    assert (Heq : (b == a)%Q) by now apply Qle_antisym.
    apply Qeq_bool_iff in Heq. congruence.
Qed.

(** ** [sorted] and [unique] *)

Lemma insert_inv (x : value) (l r : list value) :
  insert x l = Ok r ->
  r = x :: l
  \/ exists y l' r', l = y :: l' /\ r = y :: r' /\ below y x
                     /\ insert x l' = Ok r'.
Proof.
  destruct l as [|y l']; cbn [insert].
  - intros [= <-]. now left.
  - destruct (value_lt y x) as [[|]|e] eqn:Hlt; cbn [rbind]; try discriminate.
    + destruct (insert x l') as [r'|e] eqn:Hins; cbn [rbind]; [|discriminate].
      intros [= <-]. right. now exists y, l', r'.
    + intros [= <-]. now left.
Qed.

Lemma insert_In (x : value) (l r : list value) :
  insert x l = Ok r -> forall v, In v r <-> v = x \/ In v l.
Proof.
  revert r. induction l as [|y l' IH]; intros r Hins v.
  - cbn in Hins. injection Hins as <-. cbn. intuition congruence.
  - destruct (insert_inv _ _ _ Hins) as [->|(y' & l'' & r' & [= <- <-] & -> & _ & Hr')].
    + cbn. intuition congruence.
    + specialize (IH r' Hr' v). cbn [In]. rewrite IH. intuition congruence.
Qed.

Lemma sorted_In (xs l : list value) :
  sorted xs = Ok l -> forall v, In v l <-> In v xs.
Proof.
  revert l. induction xs as [|x xs IH]; intros l Hs v.
  - cbn in Hs. injection Hs as <-. reflexivity.
  - cbn [sorted] in Hs.
    destruct (sorted xs) as [l'|e]; cbn [rbind] in Hs; [|discriminate].
    rewrite (insert_In _ _ _ Hs v), (IH l' eq_refl v). cbn. intuition congruence.
Qed.

Lemma insert_ascending (x : value) (l r : list value) :
  ascending l ->
  (forall y, In y l -> value_eqb y x = false) ->
  insert x l = Ok r ->
  ascending r.
Proof.
  unfold ascending. revert r.
  induction l as [|y l' IH]; intros r Hasc Hneq Hins.
  - cbn in Hins. injection Hins as <-. repeat constructor.
  - cbn [insert] in Hins.
    destruct (value_lt y x) as [[|]|e] eqn:Hlt; cbn [rbind] in Hins;
      try discriminate.
    + destruct (insert x l') as [r'|e] eqn:Hr'; cbn [rbind] in Hins;
        [|discriminate].
      injection Hins as <-.
      apply Sorted_inv in Hasc. destruct Hasc as [Hl' Hhd].
      constructor.
      * apply IH; [exact Hl' | intros z Hz; apply Hneq; now right | reflexivity].
      * destruct (insert_inv _ _ _ Hr') as [->|(z & l'' & r'' & -> & -> & _ & _)].
        -- constructor. exact Hlt.
        -- constructor. now inversion Hhd.
    + injection Hins as <-. constructor; [exact Hasc|].
      constructor. apply below_total; [exact Hlt|].
      apply Hneq. now left.
Qed.

Lemma sorted_ascending (xs l : list value) :
  distinct xs -> sorted xs = Ok l -> ascending l.
Proof.
  revert l. induction xs as [|x xs IH]; intros l Hd Hs.
  - cbn in Hs. injection Hs as <-. constructor.
  - cbn [sorted] in Hs. destruct Hd as [Hx Hd].
    destruct (sorted xs) as [l'|e] eqn:Hl'; cbn [rbind] in Hs; [|discriminate].
    apply (insert_ascending x l' l); [now apply IH | | exact Hs].
    intros y Hy. apply Hx. now apply (sorted_In xs l' Hl').
Qed.

Lemma distinct_filter (f : value -> bool) (l : list value) :
  distinct l -> distinct (filter f l).
Proof.
  induction l as [|x l IH]; [trivial|].
  intros [Hx Hd]. cbn [filter]. destruct (f x); [|now apply IH].
  split; [|now apply IH].
  intros y Hy. apply Hx. apply filter_In in Hy. tauto.
Qed.

Lemma distinct_unique (xs : list value) : distinct (unique xs).
Proof.
  induction xs as [|x xs IH]; [exact I|].
  cbn [unique]. split; [|now apply distinct_filter].
  intros y Hy. apply filter_In in Hy. destruct Hy as [_ Hy].
  now apply negb_true_iff in Hy.
Qed.

Lemma unique_sound (xs : list value) (v : value) :
  In v (unique xs) -> In v xs.
Proof.
  induction xs as [|x xs IH]; [trivial|].
  cbn [unique In]. intros [->|Hv]; [now left|].
  right. apply IH. apply filter_In in Hv. tauto.
Qed.

Lemma unique_complete (xs : list value) (v : value) :
  In v xs -> exists v', In v' (unique xs) /\ value_eqb v v' = true.
Proof.
  induction xs as [|x xs IH]; [intros []|].
  cbn [unique In]. intros [->|Hv].
  - exists v. split; [now left | apply value_eqb_refl].
  - destruct (IH Hv) as (v' & Hin & Heq).
    destruct (value_eqb v' x) eqn:Hx.
    + exists x. split; [now left | now apply (value_eqb_trans v v' x)].
    + exists v'. split; [|exact Heq].
      right. apply filter_In. split; [exact Hin | now rewrite Hx].
Qed.

Lemma dropna_In {A : Type} (xs : list (option A)) (a : A) :
  In a (dropna xs) <-> In (Some a) xs.
Proof.
  induction xs as [|[b|] xs IH]; cbn [dropna In].
  - reflexivity.
  - rewrite IH. intuition congruence.
  - rewrite IH. intuition congruence.
Qed.

Lemma insert_same_type (x : value) (l : list value) :
  (forall y, In y l -> is_text y = is_text x) ->
  exists r, insert x l = Ok r.
Proof.
  induction l as [|y l IH]; intros Hty; [now eexists|].
  cbn [insert].
  assert (Hy : is_text y = is_text x) by (apply Hty; now left).
  destruct IH as [r Hr]; [intros z Hz; apply Hty; now right|].
  destruct y, x; cbn in Hy; try discriminate; cbn [value_lt rbind];
    match goal with |- context [if ?b then _ else _] => destruct b end;
    rewrite ?Hr; cbn [rbind]; now eexists.
Qed.

Lemma sorted_same_type (xs : list value) (t : bool) :
  (forall y, In y xs -> is_text y = t) ->
  exists l, sorted xs = Ok l.
Proof.
  induction xs as [|x xs IH]; intros Hty; [now eexists|].
  destruct IH as [l Hl]; [intros z Hz; apply Hty; now right|].
  cbn [sorted]. rewrite Hl. cbn [rbind].
  apply insert_same_type. intros y Hy.
  rewrite (Hty x (or_introl eq_refl)). apply Hty. right.
  now apply (sorted_In xs l Hl).
Qed.

(** ** The product filter *)

(** The option list, when [sorted] returns: the label of all products, then
    the distinct present products in strictly ascending order. *)
Lemma product_options_spec (df : DataFrame) (opts : list value) :
  product_options df = Ok opts ->
  exists l,
    opts = all_products :: l
    /\ ascending l
    /\ (forall v, In v l -> In (Some v) (column "PRODUCT" df))
    /\ (forall v, In (Some v) (column "PRODUCT" df) ->
                  exists v', In v' l /\ value_eqb v v' = true).
Proof.
  unfold product_options. intros H.
  destruct (sorted (unique (dropna (column "PRODUCT" df)))) as [l|e] eqn:Hl;
    cbn [rbind] in H; [|discriminate].
  injection H as <-. exists l. split; [reflexivity|]. split; [|split].
  - apply (sorted_ascending _ _ (distinct_unique _) Hl).
  - intros v Hv. apply dropna_In, unique_sound.
    now apply (sorted_In _ _ Hl).
  - intros v Hv. apply dropna_In in Hv.
    destruct (unique_complete _ _ Hv) as (v' & Hin & Heq).
    exists v'. split; [now apply (sorted_In _ _ Hl) | exact Heq].
Qed.

(** The option list exists when the present products are all text, or all
    numbers; a column that mixes the two makes [sorted] raise. *)
Lemma product_options_same_type (df : DataFrame) (t : bool) :
  (forall v, In (Some v) (column "PRODUCT" df) -> is_text v = t) ->
  exists opts, product_options df = Ok opts.
Proof.
  intros Hty. unfold product_options.
  destruct (sorted_same_type (unique (dropna (column "PRODUCT" df))) t)
    as [l Hl].
  - intros y Hy. apply Hty, dropna_In. now apply unique_sound.
  - rewrite Hl. now eexists.
Qed.

Lemma filter_by_product_run (inp : inputs) (df : DataFrame) (w : world)
  (opts : list value) :
  has_column "PRODUCT" df = true ->
  product_options df = Ok opts ->
  let product := nth (pick_product inp) opts all_products in
  filter_by_product inp df w
  = (Ok (product,
         if negb (value_eqb product all_products)
         then select_rows "PRODUCT" product df else df),
     mkWorld (chat_msgs w)
       (screen w ++ [subheader "Filter by Product";
                     selectbox "Choose a product" opts])%list).
Proof.
  intros Hcol Hopts product. unfold filter_by_product.
  rewrite Hcol, Hopts. run_block. fold product.
  destruct (negb (value_eqb product all_products)); reflexivity.
Qed.

(** C6.  With the PRODUCT column present and the option list built,
    selecting the entry "All Products" makes the block return the loaded
    table itself as the filtered view: the same labels and the same rows in
    the same order.  The first entry of the option list, selected until the
    user picks another, is that entry. *)
Theorem filter_all_products_is_identity
  (inp : inputs) (df_reviews : DataFrame) (w : world) (opts : list value) :
  has_column "PRODUCT" df_reviews = true ->
  product_options df_reviews = Ok opts ->
  nth (pick_product inp) opts all_products = all_products ->
  filter_by_product inp df_reviews w
  = (Ok (all_products, df_reviews),
     mkWorld (chat_msgs w)
       (screen w ++ [subheader "Filter by Product";
                     selectbox "Choose a product" opts])%list)
  /\ nth 0 opts all_products = all_products.
Proof.
  intros Hcol Hopts Hpick. split.
  - rewrite (filter_by_product_run inp df_reviews w opts Hcol Hopts).
    cbv zeta. rewrite Hpick. reflexivity.
  - destruct (product_options_spec _ _ Hopts) as (l & -> & _). reflexivity.
Qed.

Lemma filter_all_products_is_identity_witness :
  product_options reviews_sample
  = Ok [all_products; VStr "Boots"; VStr "Skis"; VStr "boots"]
  /\ fst (filter_by_product (mkInputs 0 0 None) reviews_sample empty_world)
     = Ok (all_products, reviews_sample).
Proof.
  assert (Hopts : product_options reviews_sample
                  = Ok [all_products; VStr "Boots"; VStr "Skis"; VStr "boots"])
    by reflexivity.
  split; [exact Hopts|].
  rewrite (proj1 (filter_all_products_is_identity
                    (mkInputs 0 0 None) reviews_sample empty_world _
                    eq_refl Hopts eq_refl)).
  reflexivity.
Defined.

(** C7 (as the code has it).  With the PRODUCT column present and the
    option list built, selecting an entry other than the text "All Products"
    makes the block return, under the same labels, the rows of the table
    whose product equals the selected value, in their order, and no other
    row; for a selected text the product of such a row is that text,
    character by character.  The option list is "All Products" followed by
    the distinct present products in strictly ascending order. *)
Theorem filter_selected_product
  (inp : inputs) (df_reviews : DataFrame) (w : world) (opts : list value)
  (product : value) :
  has_column "PRODUCT" df_reviews = true ->
  product_options df_reviews = Ok opts ->
  nth (pick_product inp) opts all_products = product ->
  product <> all_products ->
  exists filtered,
    filter_by_product inp df_reviews w
    = (Ok (product, filtered),
       mkWorld (chat_msgs w)
         (screen w ++ [subheader "Filter by Product";
                       selectbox "Choose a product" opts])%list)
    /\ columns filtered = columns df_reviews
    /\ rows filtered
       = filter (fun row => cell_is product (field "PRODUCT" df_reviews row))
           (rows df_reviews)
    /\ (forall row,
           In row (rows filtered)
           <-> In row (rows df_reviews)
               /\ cell_is product (field "PRODUCT" df_reviews row) = true)
    /\ (forall p, product = VStr p ->
         forall row,
           In row (rows filtered)
           <-> In row (rows df_reviews)
               /\ field "PRODUCT" df_reviews row = Some (VStr p))
    /\ exists l,
        opts = all_products :: l
        /\ ascending l
        /\ (forall v, In v l -> In (Some v) (column "PRODUCT" df_reviews))
        /\ (forall v, In (Some v) (column "PRODUCT" df_reviews) ->
                      exists v', In v' l /\ value_eqb v v' = true).
Proof.
  intros Hcol Hopts Hpick Hne.
  exists (select_rows "PRODUCT" product df_reviews).
  assert (Hneb : value_eqb product all_products = false).
  { destruct (value_eqb product all_products) eqn:He; [|reflexivity].
    apply value_eqb_text in He. contradiction. }
  split; [|split; [reflexivity|split; [reflexivity|split; [|split]]]].
  - rewrite (filter_by_product_run inp df_reviews w opts Hcol Hopts).
    cbv zeta. rewrite Hpick, Hneb. reflexivity.
  - intros row. cbn [select_rows rows]. apply filter_In.
  - intros p -> row. cbn [select_rows rows].
    rewrite filter_In, cell_is_text. reflexivity.
  - now apply product_options_spec.
Qed.

Lemma filter_selected_product_witness :
  fst (filter_by_product (mkInputs 1 0 None) reviews_sample empty_world)
  = Ok (VStr "Boots",
        mkDF ["PRODUCT"; "SENTIMENT_SCORE"]
          [[Some (VStr "Boots"); Some (VStr "n/a")]]).
Proof.
  destruct (filter_selected_product
              (mkInputs 1 0 None) reviews_sample empty_world
              [all_products; VStr "Boots"; VStr "Skis"; VStr "boots"]
              (VStr "Boots") eq_refl eq_refl eq_refl ltac:(discriminate))
    as (filtered & Hrun & Hcols & Hrows & _).
  rewrite Hrun. cbn [fst]. destruct filtered as [cols rws].
  cbn [columns rows] in Hcols, Hrows. subst cols rws. reflexivity.
Defined.

(** C7, counterexample for a product named like the first entry: a
    product named "All Products" is listed as a category of its own, but
    selecting it returns the whole table, with the rows of the other
    products. *)
Lemma product_named_all_products_not_filtered :
  let df := mkDF ["PRODUCT"]
              [[Some (VStr "All Products")]; [Some (VStr "Boots")]] in
  let inp := mkInputs 1 0 None in
  product_options df = Ok [all_products; VStr "All Products"; VStr "Boots"]
  /\ nth (pick_product inp) [all_products; VStr "All Products"; VStr "Boots"]
       all_products = VStr "All Products"
  /\ In (Some (VStr "All Products")) (column "PRODUCT" df)
  /\ fst (filter_by_product inp df empty_world)
     = Ok (VStr "All Products", df)
  /\ In [Some (VStr "Boots")] (rows df)
  /\ field "PRODUCT" df [Some (VStr "Boots")] <> Some (VStr "All Products").
Proof.
  cbv zeta. split; [reflexivity|]. split; [reflexivity|].
  split; [now left|]. split; [reflexivity|].
  split; [right; now left | discriminate].
Qed.

(** ** The histogram: every valid score falls in exactly one bin *)

(** Linear arithmetic on the rationals *)
Ltac qlra := Lqa.lra.
Ltac qnra := Lqa.nra.

Lemma Qle_bool_false (a b : Q) : Qle_bool a b = false -> (b < a)%Q.
Proof.
  intros H. apply Qnot_le_lt. intros Hle.
  apply Qle_bool_iff in Hle. congruence.
Qed.

Ltac qbool :=
  repeat match goal with
    | H : Qle_bool _ _ = true |- _ => apply Qle_bool_iff in H
    | H : Qle_bool _ _ = false |- _ => apply Qle_bool_false in H
    | H : Qeq_bool _ _ = true |- _ => apply Qeq_bool_iff in H
    | H : Qeq_bool _ _ = false |- _ => apply Qeq_bool_neq in H
    end.

Lemma qmin_spec (a b : Q) : (qmin a b <= a /\ qmin a b <= b)%Q.
Proof. unfold qmin. destruct (Qle_bool a b) eqn:H; qbool; split; qlra. Qed.

Lemma qmax_spec (a b : Q) : (a <= qmax a b /\ b <= qmax a b)%Q.
Proof. unfold qmax. destruct (Qle_bool a b) eqn:H; qbool; split; qlra. Qed.

Lemma series_min_le (x : Q) (xs : list Q) :
  forall y, In y (x :: xs) -> (series_min x xs <= y)%Q.
Proof.
  unfold series_min. revert x.
  induction xs as [|z xs IH]; intros x y Hy.
  - destruct Hy as [<-|[]]. cbn. qlra.
  - cbn [fold_left].
    pose proof (qmin_spec x z) as [Hx Hz].
    pose proof (IH (qmin x z) (qmin x z) (or_introl eq_refl)) as Hacc.
    destruct Hy as [<-|[<-|Hy]]; try qlra.
    apply IH. now right.
Qed.

Lemma series_max_ge (x : Q) (xs : list Q) :
  forall y, In y (x :: xs) -> (y <= series_max x xs)%Q.
Proof.
  unfold series_max. revert x.
  induction xs as [|z xs IH]; intros x y Hy.
  - destruct Hy as [<-|[]]. cbn. qlra.
  - cbn [fold_left].
    pose proof (qmax_spec x z) as [Hx Hz].
    pose proof (IH (qmax x z) (qmax x z) (or_introl eq_refl)) as Hacc.
    destruct Hy as [<-|[<-|Hy]]; try qlra.
    apply IH. now right.
Qed.

Lemma widen_pos (m : Q) : (0 < widen m)%Q.
Proof.
  unfold widen, permille. destruct (Qeq_bool m 0) eqn:Hm; [reflexivity|].
  qbool. apply Qabs_case; intros H; qlra.
Qed.

Lemma of_nat_q_S (i : nat) : (of_nat_q (S i) == of_nat_q i + 1)%Q.
Proof.
  unfold of_nat_q. rewrite Nat2Z.inj_succ, <- Z.add_1_r, inject_Z_plus.
  reflexivity.
Qed.

Lemma of_nat_q_le (i j : nat) : i <= j -> (of_nat_q i <= of_nat_q j)%Q.
Proof. intros H. unfold of_nat_q. rewrite <- Zle_Qle. lia. Qed.

Lemma of_nat_q_pos (n : nat) : 0 < n -> (0 < of_nat_q n)%Q.
Proof.
  intros H. unfold of_nat_q. change 0%Q with (inject_Z 0).
  rewrite <- Zlt_Qlt. lia.
Qed.

Lemma sorted_points (f : nat -> Q) (hi : Q) (len a : nat) :
  (forall i, f i <= f (S i))%Q ->
  (forall i, i < a + len -> (f i <= hi)%Q) ->
  Sorted Qle (map f (seq a len) ++ [hi])%list.
Proof.
  intros Hmono. revert a.
  induction len as [|len IH]; intros a Hhi; cbn [seq map app].
  - repeat constructor.
  - constructor.
    + apply IH. intros i Hi. apply Hhi. lia.
    + destruct len as [|len']; cbn [seq map app]; constructor.
      * apply Hhi. lia.
      * apply Hmono.
Qed.

(** The grid of [linspace] ascends from [lo] to [hi]. *)
Lemma linspace_sorted (lo hi : Q) (n : nat) :
  (lo <= hi)%Q -> Sorted Qle (linspace lo hi n).
Proof.
  intros Hle. destruct n as [|m]; [repeat constructor|].
  unfold linspace.
  pose proof (of_nat_q_pos (S m) ltac:(lia)) as Hn.
  set (t := ((hi - lo) / of_nat_q (S m))%Q).
  assert (Ht : (t * of_nat_q (S m) == hi - lo)%Q).
  { unfold t. field. qlra. }
  assert (Ht0 : (0 <= t)%Q).
  { unfold t. apply Qle_shift_div_l; [exact Hn | qlra]. }
  apply sorted_points.
  - intros i. rewrite of_nat_q_S. qnra.
  - intros i Hi. cbn in Hi.
    assert (Hi' : (of_nat_q i * t <= of_nat_q (S m) * t)%Q).
    { apply Qmult_le_compat_r; [apply of_nat_q_le; lia | exact Ht0]. }
    qlra.
Qed.

Lemma last_cons (a b : Q) (l : list Q) : last (b :: l) a = last l b.
Proof.
  revert a b. induction l as [|c l IH]; intros a b; [reflexivity|].
  change (last (b :: c :: l) a) with (last (c :: l) a).
  now rewrite (IH a c), (IH b c).
Qed.

Lemma sorted_hd_le_last (a : Q) (l : list Q) :
  Sorted Qle (a :: l) -> (a <= last l a)%Q.
Proof.
  revert a. induction l as [|b l IH]; intros a Hs; [cbn; qlra|].
  apply Sorted_inv in Hs. destruct Hs as [Hl Hhd].
  apply HdRel_inv in Hhd. rewrite last_cons.
  specialize (IH b Hl). qlra.
Qed.

Lemma list_sum_cons (a : nat) (l : list nat) :
  list_sum (a :: l) = a + list_sum l.
Proof. reflexivity. Qed.

Lemma hits_chain (a : Q) (rest : list Q) (x : Q) :
  Sorted Qle (a :: rest) ->
  hits (intervals (a :: rest)) x
  = if in_bin (a, last rest a) x then 1 else 0.
Proof.
  revert a. induction rest as [|b rest IH]; intros a Hs.
  - unfold in_bin. cbn.
    destruct (Qle_bool x a); reflexivity.
  - pose proof Hs as Hs'.
    apply Sorted_inv in Hs'. destruct Hs' as [Hrest Hhd].
    apply HdRel_inv in Hhd.
    pose proof (sorted_hd_le_last b rest Hrest) as Hlast.
    change (intervals (a :: b :: rest)) with ((a, b) :: intervals (b :: rest)).
    unfold hits in *. cbn [map]. rewrite list_sum_cons, (IH b Hrest).
    rewrite last_cons. unfold in_bin. cbn [fst snd].
    destruct (Qle_bool x a) eqn:Hxa, (Qle_bool x b) eqn:Hxb,
      (Qle_bool x (last rest b)) eqn:Hxl;
      cbn; try reflexivity; qbool; exfalso; qlra.
Qed.

Lemma list_sum_map_add {A : Type} (g h : A -> nat) (l : list A) :
  list_sum (map (fun a => g a + h a) l)
  = list_sum (map g l) + list_sum (map h l).
Proof.
  induction l as [|a l IH]; [reflexivity|].
  cbn [map]. rewrite !list_sum_cons. lia.
Qed.

Lemma total_counts (ivs : list (Q * Q)) (s : list Q) :
  list_sum (map (fun iv => List.length (filter (in_bin iv) s)) ivs)
  = list_sum (map (hits ivs) s).
Proof.
  induction s as [|x s IH].
  - cbn [filter List.length map].
    induction ivs as [|iv ivs IHi]; [reflexivity|].
    cbn [map]. now rewrite list_sum_cons, IHi.
  - cbn [map]. rewrite list_sum_cons, <- IH. unfold hits.
    rewrite <- list_sum_map_add. f_equal. apply map_ext. intros iv.
    cbn [filter]. destruct (in_bin iv x); reflexivity.
Qed.

(** The edges pandas derives enclose every value of the series: the first
    is below the minimum, the last is at or above the maximum, and they
    ascend. *)
Lemma bin_edges_cover (x : Q) (xs : list Q) (n : nat) :
  0 < n ->
  exists e0 rest,
    bin_edges x xs n = e0 :: rest
    /\ Sorted Qle (e0 :: rest)
    /\ (e0 < series_min x xs)%Q
    /\ (series_max x xs <= last rest e0)%Q.
Proof.
  intros Hn. destruct n as [|m]; [lia|].
  pose proof (series_min_le x xs x (or_introl eq_refl)) as Hmn.
  pose proof (series_max_ge x xs x (or_introl eq_refl)) as Hmx.
  unfold bin_edges.
  set (mn := series_min x xs) in *. set (mx := series_max x xs) in *.
  pose proof (widen_pos mn) as Hwn. pose proof (widen_pos mx) as Hwx.
  destruct (Qeq_bool mn mx) eqn:Heq.
  - pose proof (linspace_sorted (mn - widen mn) (mx + widen mx) (S m)
                  ltac:(qlra)) as Hs.
    unfold linspace in *. cbn [seq map app] in *.
    eexists. eexists. split; [reflexivity|]. split; [exact Hs|].
    rewrite last_last. change (of_nat_q 0) with 0%Q.
    generalize ((mx + widen mx - (mn - widen mn)) / of_nat_q (S m))%Q.
    intros t. split; qlra.
  - pose proof (linspace_sorted mn mx (S m) ltac:(qlra)) as Hs.
    qbool.
    unfold linspace in *. cbn [seq map app] in *.
    eexists. eexists. split; [reflexivity|].
    rewrite last_last. unfold permille. change (of_nat_q 0) with 0%Q in *.
    revert Hs. generalize ((mx - mn) / of_nat_q (S m))%Q. intros t Hs.
    split; [|split; qlra].
    apply Sorted_inv in Hs. destruct Hs as [Hrest Hhd].
    constructor; [exact Hrest|].
    destruct Hhd as [|b l Hb]; constructor. qlra.
Qed.

(** The counts of the histogram add up to the number of values. *)
Lemma cut_counts_total (s : list Q) (n : nat) :
  0 < n -> list_sum (map snd (cut_counts s n)) = List.length s.
Proof.
  intros Hn. destruct s as [|x xs]; [reflexivity|].
  unfold cut_counts. rewrite map_map. cbn [snd].
  rewrite total_counts.
  destruct (bin_edges_cover x xs n Hn) as (e0 & rest & -> & Hs & Hlo & Hhi).
  assert (Hone : forall y, In y (x :: xs) ->
                           hits (intervals (e0 :: rest)) y = 1).
  { intros y Hy. rewrite (hits_chain e0 rest y Hs).
    pose proof (series_min_le x xs y Hy). pose proof (series_max_ge x xs y Hy).
    unfold in_bin. cbn [fst snd].
    destruct (Qle_bool y e0) eqn:H1, (Qle_bool y (last rest e0)) eqn:H2;
      cbn; try reflexivity; qbool; exfalso; qlra. }
  induction (x :: xs) as [|y l IH]; [reflexivity|].
  cbn [map List.length].
  rewrite list_sum_cons, (Hone y (or_introl eq_refl)), IH; [reflexivity|].
  intros z Hz. apply Hone. now right.
Qed.

(** ** Scores that are not numbers *)

Section Scores.

Variable parse_number : string -> option Q.

Lemma dropna_to_numeric (df : DataFrame) (l : list (list cell)) :
  dropna
    (map (fun row => to_numeric parse_number (field "SENTIMENT_SCORE" df row))
       l)
  = map (score parse_number df) (filter (has_score parse_number df) l).
Proof.
  induction l as [|row l IH]; [reflexivity|].
  cbn [map dropna filter]. unfold has_score, score in *.
  destruct (to_numeric parse_number (field "SENTIMENT_SCORE" df row)) eqn:E;
    cbn [dropna map]; rewrite ?E; now rewrite IH.
Qed.

Lemma scores_counted (df : DataFrame) :
  scores parse_number df
  = map (score parse_number df)
      (filter (has_score parse_number df) (rows df)).
Proof.
  unfold scores, column. rewrite map_map. apply dropna_to_numeric.
Qed.

Lemma group_scores_counted (df : DataFrame) (k : value) :
  dropna (group_scores parse_number df k)
  = map (score parse_number df)
      (filter (has_score parse_number df) (group_rows df k)).
Proof. unfold group_scores. apply dropna_to_numeric. Qed.

Lemma insert_by_mean_In (x y : value * option Q) (l : list (value * option Q)) :
  In y (insert_by_mean x l) <-> y = x \/ In y l.
Proof.
  induction l as [|z l IH]; cbn [insert_by_mean In].
  - intuition congruence.
  - destruct (mean_leb (snd x) (snd z)); cbn [In]; [intuition congruence|].
    rewrite IH. intuition congruence.
Qed.

Lemma sort_values_In (y : value * option Q) (l : list (value * option Q)) :
  In y (sort_values l) <-> In y l.
Proof.
  induction l as [|x l IH]; [reflexivity|].
  cbn [sort_values fold_right]. fold (sort_values l).
  rewrite insert_by_mean_In, IH. cbn [In]. intuition congruence.
Qed.

Lemma product_sent_In (df : DataFrame) (k : value) (m : option Q) :
  In (k, m) (product_sent parse_number df) ->
  m = mean (group_scores parse_number df k)
  /\ In (Some k) (column "PRODUCT" df).
Proof.
  unfold product_sent, groupby_mean. rewrite sort_values_In, in_map_iff.
  intros (k' & [= -> <-] & Hk). split; [reflexivity|].
  now apply dropna_In, unique_sound.
Qed.

Lemma mean_spec (xs : list (option Q)) :
  match mean xs with
  | None => dropna xs = []
  | Some m =>
      dropna xs <> []
      /\ (m * of_nat_q (List.length (dropna xs)) == qsum (dropna xs))%Q
  end.
Proof.
  unfold mean. destruct (dropna xs) as [|v vs]; [reflexivity|].
  split; [discriminate|].
  fold (of_nat_q (List.length (v :: vs))).
  pose proof (of_nat_q_pos (List.length (v :: vs)) ltac:(cbn; lia)) as Hn.
  field. qlra.
Qed.

(** C8.  A score that is a text pandas cannot read as a number is coerced
    to a missing value.  In the series of means, the mean of a product is
    taken over the rows of that product whose score is a number: it is
    missing when there is none, and otherwise the mean times the number of
    those rows is the sum of their scores; the other rows of the product
    add nothing to the sum and do not count in the divisor.  The histogram
    is built from the scores that are numbers: its sample is the list of
    those scores and its counts add up to their number. *)
Theorem non_numeric_scores_excluded (df : DataFrame) :
  (forall t, parse_number t = None ->
             to_numeric parse_number (Some (VStr t)) = None
             /\ forall row,
                 field "SENTIMENT_SCORE" df row = Some (VStr t) ->
                 has_score parse_number df row = false)
  /\ (forall k m,
         In (k, m) (product_sent parse_number df) ->
         let counted := filter (has_score parse_number df) (group_rows df k) in
         match m with
         | None => counted = []
         | Some q =>
             counted <> []
             /\ (q * of_nat_q (List.length counted)
                 == qsum (map (score parse_number df) counted))%Q
         end)
  /\ (let s := scores parse_number df in
      s = map (score parse_number df)
            (filter (has_score parse_number df) (rows df))
      /\ (s <> [] -> list_sum (map snd (hist s)) = List.length s)).
Proof.
  split; [|split].
  - intros t Ht. split; [exact Ht|].
    intros row Hrow. unfold has_score. rewrite Hrow. cbn. now rewrite Ht.
  - intros k m Hin counted.
    destruct (product_sent_In df k m Hin) as [-> _].
    pose proof (mean_spec (group_scores parse_number df k)) as Hm.
    rewrite (group_scores_counted df k) in Hm. fold counted in Hm.
    destruct (mean (group_scores parse_number df k)) as [q|].
    + destruct Hm as [Hne Hq]. rewrite length_map in Hq. split; [|exact Hq].
      intros Hnil. rewrite Hnil in Hne. now apply Hne.
    + now destruct counted.
  - cbv zeta. split; [apply scores_counted|].
    intros _. unfold hist. apply cut_counts_total.
    pose proof (bins_between_5_and_40
                  (Z.of_nat (List.length (scores parse_number df)))).
    lia.
Qed.

End Scores.

Lemma non_numeric_scores_excluded_witness :
  parse_sample "n/a" = None
  /\ has_score parse_sample scores_sample
       [Some (VStr "Boots"); Some (VStr "n/a")] = false
  /\ product_sent parse_sample scores_sample
     = [(VStr "Boots", Some (4 # 2)%Q); (VStr "Skis", None)]
  /\ List.length
       (filter (has_score parse_sample scores_sample)
          (group_rows scores_sample (VStr "Boots"))) = 2
  /\ list_sum (map snd (hist (scores parse_sample scores_sample))) = 2.
Proof.
  pose proof (non_numeric_scores_excluded parse_sample scores_sample)
    as (Htext & _ & _ & Hhist).
  assert (Hna : parse_sample "n/a" = None) by reflexivity.
  split; [exact Hna|].
  split;
    [exact (proj2 (Htext "n/a" Hna)
              [Some (VStr "Boots"); Some (VStr "n/a")] eq_refl)|].
  split; [reflexivity|]. split; [reflexivity|].
  rewrite Hhist; [reflexivity | discriminate].
Defined.

(** In the sample the mean of Boots is (1 + 3) / 2 = 2: the row "n/a" is
    neither a zero in the sum (the mean would be 4/3) nor a row in the
    divisor. *)
Example mean_skips_text_score :
  exists m,
    In (VStr "Boots", Some m) (product_sent parse_sample scores_sample)
    /\ (m == 2)%Q /\ ~ (m == 4 # 3)%Q
    /\ List.length (group_rows scores_sample (VStr "Boots")) = 3.
Proof.
  exists (4 # 2)%Q. split; [now left|].
  split; [reflexivity|]. split; [discriminate | reflexivity].
Qed.

(** *** A score that is not a number acts as a missing score *)

Lemma index_of_inj (a b : string) (cols : list string) (i : nat) :
  index_of a cols = Some i -> index_of b cols = Some i -> a = b.
Proof.
  revert i. induction cols as [|c cols IH]; intros i; cbn [index_of];
    [discriminate|].
  destruct (String.eqb_spec a c) as [->|Ha], (String.eqb_spec b c) as [->|Hb].
  - reflexivity.
  - intros [= <-]. destruct (index_of b cols); discriminate.
  - destruct (index_of a cols); [intros [= <-]|]; discriminate.
  - destruct (index_of a cols) as [ia|] eqn:Hia; [|discriminate].
    destruct (index_of b cols) as [ib|] eqn:Hib; [|discriminate].
    intros [= <-] [= ->]. now apply (IH ia).
Qed.

Lemma cell_at_update_same (i : nat) (f : cell -> cell) (row : list cell) :
  f None = None -> cell_at i (update_at i f row) = f (cell_at i row).
Proof.
  intros Hf. unfold cell_at. revert i.
  induction row as [|c row IH]; intros i.
  - cbn. destruct i; now rewrite Hf.
  - destruct i as [|j]; cbn; [reflexivity | apply IH].
Qed.

Lemma cell_at_update_other (i j : nat) (f : cell -> cell) (row : list cell) :
  i <> j -> cell_at j (update_at i f row) = cell_at j row.
Proof.
  unfold cell_at. revert i j.
  induction row as [|c row IH]; intros i j Hij; [reflexivity|].
  destruct i as [|i'], j as [|j']; cbn; try reflexivity; try congruence.
  apply IH. congruence.
Qed.

Lemma filter_map_swap {A B : Type} (p : B -> bool) (g : A -> B) (l : list A) :
  filter p (map g l) = map g (filter (fun a => p (g a)) l).
Proof.
  induction l as [|a l IH]; [reflexivity|].
  cbn [map filter]. destruct (p (g a)); cbn [map]; now rewrite IH.
Qed.

Lemma to_numeric_as_missing (parse_number : string -> option Q) (c : cell) :
  to_numeric parse_number (as_missing parse_number c)
  = to_numeric parse_number c.
Proof.
  unfold as_missing.
  destruct (to_numeric parse_number c) eqn:Hc; [exact Hc | reflexivity].
Qed.

(** The means and the histogram sample are those of the table in which
    every score that is not a number has been replaced by a missing
    score. *)
Lemma text_scores_act_as_missing (parse_number : string -> option Q)
  (df : DataFrame) :
  product_sent parse_number (blanked parse_number df)
  = product_sent parse_number df
  /\ scores parse_number (blanked parse_number df) = scores parse_number df.
Proof.
  unfold blanked, map_column.
  destruct (index_of "SENTIMENT_SCORE" (columns df)) as [i|] eqn:Hi;
    [|split; reflexivity].
  set (f := as_missing parse_number).
  set (upd := update_at i f).
  assert (Hscore : forall row,
             field "SENTIMENT_SCORE" (mkDF (columns df) (map upd (rows df)))
               (upd row)
             = f (field "SENTIMENT_SCORE" df row)).
  { intros row. unfold field. cbn [columns]. rewrite Hi.
    now apply cell_at_update_same. }
  assert (Hprod : forall row,
             field "PRODUCT" (mkDF (columns df) (map upd (rows df))) (upd row)
             = field "PRODUCT" df row).
  { intros row. unfold field. cbn [columns].
    destruct (index_of "PRODUCT" (columns df)) as [j|] eqn:Hj; [|reflexivity].
    apply cell_at_update_other. intros ->.
    pose proof (index_of_inj _ _ _ _ Hi Hj). discriminate. }
  assert (Hcol : column "PRODUCT" (mkDF (columns df) (map upd (rows df)))
                 = column "PRODUCT" df).
  { unfold column. cbn [rows]. rewrite map_map. now apply map_ext. }
  split.
  - unfold product_sent, groupby_mean. rewrite Hcol. f_equal.
    apply map_ext. intros k. f_equal. f_equal.
    unfold group_scores, group_rows. cbn [rows].
    rewrite filter_map_swap, map_map.
    rewrite (filter_ext _ (fun row => cell_is k (field "PRODUCT" df row)))
      by (intros row; now rewrite Hprod).
    apply map_ext. intros row. rewrite Hscore. apply to_numeric_as_missing.
  - unfold scores, column. cbn [rows]. rewrite !map_map. f_equal.
    apply map_ext. intros row. rewrite Hscore. apply to_numeric_as_missing.
Qed.

(** ** The chat *)

Lemma history_stored (l : list turn) (scr : list ui_event) :
  history (mkWorld (Some l) scr) = l.
Proof. reflexivity. Qed.

Lemma bind_ok {A B : Type} (m : M A) (k : A -> M B) (w w' : world) (a : A) :
  m w = (Ok a, w') -> bind m k w = k a w'.
Proof. intros H. unfold bind. now rewrite H. Qed.

Lemma bind_raise {A B : Type} (m : M A) (k : A -> M B) (w w' : world) (e : exn) :
  m w = (Raise e, w') -> bind m k w = (Raise e, w').
Proof. intros H. unfold bind. now rewrite H. Qed.

Lemma for_each_bubbles (msgs : list turn) (w : world) :
  for_each msgs (fun t => emit (chat_message (fst t) (snd t))) w
  = (Ok tt, mkWorld (chat_msgs w) (screen w ++ map bubble msgs)%list).
Proof.
  revert w. induction msgs as [|t msgs IH]; intros w.
  - cbn. rewrite app_nil_r. now destruct w.
  - cbn [for_each map]. unfold bind at 1, emit at 1.
    rewrite IH. cbn [chat_msgs screen]. now rewrite <- app_assoc.
Qed.

(** One run of the chat box, from any world: it returns, the stored
    conversation grows at its end by [new_turns], and the screen shows the
    stored turns in their order, then the new ones. *)
Lemma cortex_chatbox_run (run_sql : string -> result DataFrame) (inp : inputs)
  (df_reviews : DataFrame) (w : world) :
  cortex_chatbox run_sql inp df_reviews w
  = (Ok tt,
     mkWorld (Some (history w ++ new_turns run_sql inp df_reviews)%list)
       (screen w
        ++ [markdown "---"; header "💬 Avalanche Assistant (Cortex)";
            selectbox "Cortex model" (map VStr models)]
        ++ map bubble (history w)
        ++ [chat_input "Ask a question (I can also draft Snowflake SQL)"]
        ++ map bubble (new_turns run_sql inp df_reviews))%list).
Proof.
  unfold cortex_chatbox, new_turns.
  unfold bind at 1 2 3, emit at 1 2 3. cbn [chat_msgs screen].
  unfold bind at 1, init_chat. cbn [chat_msgs screen].
  assert (Hinit :
    forall scr,
      (match chat_msgs w with
       | Some _ => (Ok tt, mkWorld (chat_msgs w) scr)
       | None => (Ok tt, mkWorld (Some []) scr)
       end) = (Ok tt, mkWorld (Some (history w)) scr)).
  { intros scr. unfold history. now destruct (chat_msgs w). }
  rewrite Hinit. clear Hinit.
  unfold bind at 1, get_chat at 1. cbn [chat_msgs screen].
  unfold bind at 1. rewrite for_each_bubbles. cbn [chat_msgs screen].
  unfold bind at 1, emit at 1. cbn [chat_msgs screen].
  rewrite <- !app_assoc. cbn [app].
  destruct (user_q inp) as [q|].
  2:{ unfold ret. cbn [map]. now rewrite !app_nil_r. }
  destruct (String.eqb q EmptyString).
  { unfold ret. cbn [map]. now rewrite !app_nil_r. }
  unfold chat_turn, bind, append_chat, emit, try_except, lift, ret.
  cbn [chat_msgs screen].
  destruct (cortex_complete run_sql _ _) as [c|e];
    cbn [chat_msgs screen map bubble fst snd];
    repeat (rewrite <- app_assoc; cbn [app]); reflexivity.
Qed.

(** C4.  When the user submits a text and the completion call raises, the
    chat box returns without raising, and the stored conversation is the
    one before followed by the user's turn and one assistant turn whose text
    is the apology ending in the text of the exception; the number of
    assistant turns grows by one. *)
Theorem failed_completion_becomes_reply
  (run_sql : string -> result DataFrame) (inp : inputs)
  (df_reviews : DataFrame) (w : world) (q : string) (e : exn) :
  user_q inp = Some q ->
  q <> EmptyString ->
  cortex_complete run_sql (nth (pick_model inp) models "mistral-large2")
    (prompt df_reviews q) = Raise e ->
  let reply := Some (VStr ("Sorry, Cortex call failed: " ++ exn_text e)) in
  let w' := snd (cortex_chatbox run_sql inp df_reviews w) in
  fst (cortex_chatbox run_sql inp df_reviews w) = Ok tt
  /\ chat_msgs w'
     = Some (history w ++ [("user", Some (VStr q)); ("assistant", reply)])%list
  /\ count_role "assistant" (history w')
     = S (count_role "assistant" (history w))
  /\ chat_turn run_sql (nth (pick_model inp) models "mistral-large2")
       df_reviews q (mkWorld (Some (history w)) (screen w))
     = (Ok tt,
        mkWorld
          (Some (history w
                 ++ [("user", Some (VStr q)); ("assistant", reply)])%list)
          (screen w ++ [chat_message "user" (Some (VStr q));
                        chat_message "assistant" reply])%list).
Proof.
  intros Hq Hne Hraise reply w'.
  assert (Hnew : new_turns run_sql inp df_reviews
                 = [("user", Some (VStr q)); ("assistant", reply)]).
  { unfold new_turns. rewrite Hq, Hraise.
    destruct (String.eqb_spec q EmptyString); [contradiction | reflexivity]. }
  subst w'. rewrite cortex_chatbox_run, Hnew. cbn [fst snd chat_msgs].
  split; [reflexivity|]. split; [reflexivity|]. split.
  - rewrite history_stored. unfold count_role.
    rewrite filter_app, length_app. cbn. apply Nat.add_1_r.
  - unfold chat_turn, bind, append_chat, emit, try_except, lift, ret.
    cbn [chat_msgs screen]. rewrite Hraise. cbn [chat_msgs screen].
    rewrite <- !app_assoc. reflexivity.
Qed.

Lemma failed_completion_becomes_reply_witness :
  let inp := mkInputs 0 0 (Some "best product?") in
  chat_msgs (snd (cortex_chatbox failing_backend inp reviews_sample
                    (mkWorld (Some [("user", Some (VStr "hi"));
                                    ("assistant", Some (VStr "hello"))]) [])))
  = Some [("user", Some (VStr "hi"));
          ("assistant", Some (VStr "hello"));
          ("user", Some (VStr "best product?"));
          ("assistant",
           Some (VStr "Sorry, Cortex call failed: model unavailable"))].
Proof.
  intros inp.
  pose proof (failed_completion_becomes_reply failing_backend inp
                reviews_sample
                (mkWorld (Some [("user", Some (VStr "hi"));
                                ("assistant", Some (VStr "hello"))]) [])
                "best product?"
                (Exn "SnowparkSQLException" "model unavailable")
                eq_refl ltac:(discriminate) eq_refl) as (_ & Hmsgs & _).
  rewrite Hmsgs. reflexivity.
Defined.

(** ** The blocks above the chat only draw *)

Lemma average_sentiment_draws (parse_number : string -> option Q)
  (df : DataFrame) :
  exists evs, draws (average_sentiment_by_product parse_number df) (Ok tt) evs.
Proof.
  unfold average_sentiment_by_product, draws.
  destruct (has_column "PRODUCT" df && has_column "SENTIMENT_SCORE" df);
    [destruct (Nat.ltb 0 (List.length (product_sent parse_number df)))|];
    eexists; intros w; run_block; reflexivity.
Qed.

Lemma filter_by_product_draws (inp : inputs) (df : DataFrame) :
  exists r evs, draws (filter_by_product inp df) r evs.
Proof.
  unfold filter_by_product, draws.
  destruct (has_column "PRODUCT" df).
  - destruct (product_options df) as [opts|e].
    + destruct (negb (value_eqb (nth (pick_product inp) opts all_products)
                        all_products)) eqn:Hsel;
        eexists; eexists; intros w; run_block; rewrite Hsel; run_block;
        reflexivity.
    + eexists; eexists; intros w; run_block; reflexivity.
  - eexists; eexists; intros w; run_block; reflexivity.
Qed.

Lemma sentiment_score_distribution_draws (parse_number : string -> option Q)
  (product : value) (filtered : DataFrame) :
  exists evs,
    draws (sentiment_score_distribution parse_number product filtered)
      (Ok tt) evs.
Proof.
  unfold sentiment_score_distribution, draws.
  destruct (has_column "SENTIMENT_SCORE" filtered);
    [destruct (Nat.ltb 0 (List.length (scores parse_number filtered)))|];
    eexists; intros w; run_block; reflexivity.
Qed.

(** A run of the page either raises above the chat, having only drawn, or
    reaches the chat box with the session state it started from. *)
Lemma page_cases (parse_number : string -> option Q) (to_datetime : cell -> cell)
  (run_sql : string -> result DataFrame) (inp : inputs) :
  (exists e evs,
      draws (page parse_number to_datetime run_sql inp) (Raise e) evs)
  \/ (exists df evs,
         forall w,
           page parse_number to_datetime run_sql inp w
           = cortex_chatbox run_sql inp df
               (mkWorld (chat_msgs w) (screen w ++ evs)%list)).
Proof.
  unfold page.
  destruct (run_sql "SELECT * FROM REVIEWS_WITH_SENTIMENT") as [df|e] eqn:Hload.
  2:{ left. exists e. eexists. intros w. run_block. reflexivity. }
  set (df_reviews := parse_dates to_datetime df).
  destruct (average_sentiment_draws parse_number df_reviews) as [ev1 H1].
  destruct (filter_by_product_draws inp df_reviews) as (r & ev2 & H2).
  destruct r as [pf|e].
  - destruct (sentiment_score_distribution_draws parse_number (fst pf) (snd pf))
      as [ev3 H3].
    right. exists df_reviews. eexists. intros w.
    unfold bind at 1, emit at 1. unfold bind at 1, lift at 1.
    unfold bind at 1, emit at 1.
    unfold bind at 1. rewrite H1.
    unfold bind at 1. rewrite H2.
    unfold bind at 1, emit at 1. unfold bind at 1, emit at 1.
    unfold bind at 1. rewrite H3.
    cbn [chat_msgs screen]. repeat (rewrite <- app_assoc; cbn [app]).
    reflexivity.
  - left. exists e. eexists. intros w.
    unfold bind at 1, emit at 1. unfold bind at 1, lift at 1.
    unfold bind at 1, emit at 1.
    unfold bind at 1. rewrite H1.
    unfold bind at 1. rewrite H2.
    cbn [chat_msgs screen]. repeat (rewrite <- app_assoc; cbn [app]).
    reflexivity.
Qed.

(** ** The conversation across reruns *)

Lemma rerun_history (parse_number : string -> option Q)
  (to_datetime : cell -> cell) (i : interaction) (w : world) :
  history (snd (rerun parse_number to_datetime i w))
  = (history w ++ appended parse_number to_datetime i)%list.
Proof.
  unfold appended, rerun.
  destruct (page_cases parse_number to_datetime (backend i) (act i))
    as [(e & evs & Hraise) | (df & evs & Hchat)].
  - rewrite !Hraise. cbn [snd chat_msgs]. unfold history. cbn [chat_msgs].
    now rewrite app_nil_r.
  - rewrite !Hchat, !cortex_chatbox_run. cbn [snd chat_msgs screen].
    rewrite !history_stored. unfold history. cbn [chat_msgs]. reflexivity.
Qed.

Lemma appended_shape (parse_number : string -> option Q)
  (to_datetime : cell -> cell) (i : interaction) :
  appended parse_number to_datetime i = []
  \/ exists q reply,
      user_q (act i) = Some q
      /\ appended parse_number to_datetime i
         = [("user", Some (VStr q)); ("assistant", reply)].
Proof.
  unfold appended, rerun.
  destruct (page_cases parse_number to_datetime (backend i) (act i))
    as [(e & evs & Hraise) | (df & evs & Hchat)].
  - left. now rewrite Hraise.
  - rewrite Hchat, cortex_chatbox_run. cbn [snd]. rewrite history_stored.
    unfold history, new_turns. cbn [chat_msgs app].
    destruct (user_q (act i)) as [q|]; [|now left].
    destruct (String.eqb q EmptyString); [now left|].
    right. eexists. eexists. split; reflexivity.
Qed.

(** C9.  The stored conversation only grows at its end.  After any
    sequence of interactions, from any world, it is the conversation before
    followed by what each interaction added, in the order of the
    interactions; an interaction adds nothing or the user's turn followed by
    one assistant turn.  In the session where the user sends "a", is
    answered "b", and sends "c": once "c" is stored the conversation is
    user "a", assistant "b", user "c"; after the run it is these three
    followed by the reply to "c"; and the next run draws the stored turns in
    that order. *)
Theorem conversation_append_only :
  (forall parse_number to_datetime steps w,
      history (interact parse_number to_datetime steps w)
      = (history w
         ++ List.concat (map (appended parse_number to_datetime) steps))%list)
  /\ (forall parse_number to_datetime i,
         appended parse_number to_datetime i = []
         \/ exists q reply,
             user_q (act i) = Some q
             /\ appended parse_number to_datetime i
                = [("user", Some (VStr q)); ("assistant", reply)])
  /\ (let ask_a := mkInteraction (mkInputs 0 0 (Some "a")) (answering "b") in
      let ask_c := mkInteraction (mkInputs 0 0 (Some "c")) failing_backend in
      let idle := mkInteraction (mkInputs 0 0 None) failing_backend in
      let w1 := interact no_numbers keep [ask_a] empty_world in
      let w2 := interact no_numbers keep [ask_a; ask_c] empty_world in
      let abc := [("user", Some (VStr "a")); ("assistant", Some (VStr "b"));
                  ("user", Some (VStr "c"))] in
      history w1 = [("user", Some (VStr "a")); ("assistant", Some (VStr "b"))]
      /\ chat_msgs (snd (append_chat ("user", Some (VStr "c")) w1)) = Some abc
      /\ history w2
         = (abc ++ [("assistant",
                     Some (VStr "Sorry, Cortex call failed: model unavailable"))])%list
      /\ filter is_bubble (screen (snd (rerun no_numbers keep idle w2)))
         = map bubble (history w2)).
Proof.
  split; [|split].
  - intros parse_number to_datetime steps.
    induction steps as [|i steps IH]; intros w.
    + cbn. now rewrite app_nil_r.
    + cbn [interact fold_left map List.concat].
      change (fold_left _ steps ?w0)
        with (interact parse_number to_datetime steps w0).
      rewrite IH, rerun_history. now rewrite app_assoc.
  - apply appended_shape.
  - cbv zeta. repeat split; vm_compute; reflexivity.
Qed.

(** * Further properties of the script *)

(** ** The session *)

Lemma read_conn_ok (secrets : secrets_t) (keys : list string)
  (val : string -> string) :
  (forall k, In k keys -> secret secrets "snowflake" k = Ok (val k)) ->
  read_conn secrets keys = Ok (map (fun k => (k, val k)) keys).
Proof.
  induction keys as [|k keys IH]; intros Hall; [reflexivity|].
  cbn [read_conn map]. rewrite (Hall k (or_introl eq_refl)). cbn [rbind].
  rewrite IH by (intros k' Hk'; apply Hall; now right). reflexivity.
Qed.


(** Inside Snowflake the secrets are not needed: with an active session the
    script connects to it whatever the secrets hold and whatever building a
    session would do, while without one empty secrets make it raise. *)
Lemma connect_prefers_active_session
  (session_t : Type) (s : session_t)
  (create : list (string * string) -> result session_t) :
  (forall secrets, connect session_t (Ok (Some s)) create secrets = Ok s)
  /\ (forall e, connect session_t (Raise e) create []
                = Raise (key_error "snowflake"))
  /\ connect session_t (Ok None) create [] = Raise (key_error "snowflake").
Proof. repeat split. Qed.

(** X1.  Without an active session (the call raised, or gave [None]) and with
    the seven keys in the section [snowflake], the session is built from
    exactly these seven entries, in the order of the source; the other
    entries of the secrets are not passed on. *)
Theorem connect_builds_from_seven_secrets
  (session_t : Type) (get_active_session : result (option session_t))
  (create : list (string * string) -> result session_t)
  (secrets : secrets_t) (val : string -> string) :
  (forall s, get_active_session <> Ok (Some s)) ->
  (forall k, In k conn_keys -> secret secrets "snowflake" k = Ok (val k)) ->
  connect session_t get_active_session create secrets
  = create [("account", val "account"); ("user", val "user");
            ("password", val "password"); ("role", val "role");
            ("warehouse", val "warehouse"); ("database", val "database");
            ("schema", val "schema")].
Proof.
  intros Hnone Hall. unfold connect.
  rewrite (read_conn_ok secrets conn_keys val Hall). cbn [rbind map conn_keys].
  destruct get_active_session as [[s|]|e]; [now elim (Hnone s) | | ];
    reflexivity.
Qed.

Lemma connect_builds_from_seven_secrets_witness :
  connect (string -> result DataFrame) (Raise (Exn "ImportError" "no module"))
    (fun conn => Ok (fun _ => Raise (Exn "Closed" (PyStr.join "," (map snd conn)))))
    secrets_sample
  = Ok (fun _ => Raise (Exn "Closed" "acme,ann,pw,analyst,wh,db,public")).
Proof.
  rewrite (connect_builds_from_seven_secrets _ _ _ secrets_sample
             (fun k => match lookup k (snd (hd ("", []) secrets_sample)) with
                       | Some v => v
                       | None => ""
                       end)).
  - reflexivity.
  - intros s. discriminate.
  - intros k Hk. cbn in Hk.
    repeat (destruct Hk as [<-|Hk]; [reflexivity|]). contradiction.
Defined.



(** ** The statement sent to Cortex *)

Lemma strip_prefix_app (p s : string) : strip_prefix p (p ++ s) = Some s.
Proof.
  induction p as [|a p IH]; [reflexivity|].
  cbn [append strip_prefix]. now rewrite Ascii.eqb_refl.
Qed.

Lemma safe_without_quote (m : string) :
  PyStr.count_char apostrophe m = 0 -> safe m = m.
Proof.
  induction m as [|c m IH]; [reflexivity|].
  cbn [PyStr.count_char]. rewrite safe_cons.
  destruct (Ascii.eqb c apostrophe); [discriminate|].
  cbn [Nat.add]. intros H. now rewrite IH.
Qed.

Lemma parse_call_cortex_sql (model prompt : string) :
  PyStr.count_char apostrophe model = 0 ->
  parse_call (cortex_sql model prompt) = Some (model, prompt).
Proof.
  intros Hm. unfold parse_call, cortex_sql.
  rewrite strip_prefix_app.
  rewrite <- (safe_without_quote model Hm) at 1.
  change ("', '" ++ safe prompt ++ "') AS RESP")
    with (String apostrophe (", '" ++ safe prompt ++ "') AS RESP")).
  rewrite read_literal_safe by reflexivity.
  rewrite strip_prefix_app.
  change (safe prompt ++ "') AS RESP")
    with (safe prompt ++ String apostrophe ") AS RESP").
  rewrite read_literal_safe by reflexivity.
  reflexivity.
Qed.

Lemma count_char_app (c : ascii) (a b : string) :
  PyStr.count_char c (a ++ b) = PyStr.count_char c a + PyStr.count_char c b.
Proof.
  induction a as [|x a IH]; [reflexivity|].
  cbn [append PyStr.count_char]. rewrite IH. apply Nat.add_assoc.
Qed.

Lemma count_char_cons_zero (c x : ascii) (s : string) :
  PyStr.count_char c (String x s) = 0 ->
  Ascii.eqb x c = false /\ PyStr.count_char c s = 0.
Proof.
  cbn [PyStr.count_char]. destruct (Ascii.eqb x c); [discriminate|].
  cbn [Nat.add]. now split.
Qed.

(** Snowflake gets a text without backslash back from its escaped literal,
    whatever follows the closing quote, as long as that is not another
    quote. *)
Lemma snowflake_literal_safe (escape : ascii -> string) (p rest : string) :
  PyStr.count_char backslash p = 0 ->
  PyStr.startswith rest "'" = false ->
  snowflake_literal escape (safe p ++ String apostrophe rest) = Some (p, rest).
Proof.
  intros Hp Hrest. induction p as [|c s IH].
  - change (safe EmptyString) with EmptyString.
    cbn [append snowflake_literal].
    change (Ascii.eqb apostrophe backslash) with false. cbv iota.
    rewrite Ascii.eqb_refl.
    destruct rest as [|r rest']; [reflexivity|].
    cbn [PyStr.startswith] in Hrest.
    rewrite andb_true_r, ascii_eqb_sym in Hrest.
    fold apostrophe in Hrest. now rewrite Hrest.
  - apply count_char_cons_zero in Hp. destruct Hp as [Hc Hs].
    rewrite safe_cons. destruct (Ascii.eqb c apostrophe) eqn:Hq.
    + apply Ascii.eqb_eq in Hq. subst c.
      cbn [append snowflake_literal].
      change (Ascii.eqb apostrophe backslash) with false. cbv iota.
      rewrite Ascii.eqb_refl. now rewrite IH.
    + cbn [append snowflake_literal]. rewrite Hc, Hq. now rewrite IH.
Qed.

Lemma snowflake_call_cortex_sql (escape : ascii -> string)
  (model prompt : string) :
  PyStr.count_char apostrophe model = 0 ->
  PyStr.count_char backslash model = 0 ->
  PyStr.count_char backslash prompt = 0 ->
  snowflake_call escape (cortex_sql model prompt) = Some (model, prompt).
Proof.
  intros Hm Hbm Hbp. unfold snowflake_call, cortex_sql.
  rewrite strip_prefix_app.
  rewrite <- (safe_without_quote model Hm) at 1.
  change ("', '" ++ safe prompt ++ "') AS RESP")
    with (String apostrophe (", '" ++ safe prompt ++ "') AS RESP")).
  rewrite (snowflake_literal_safe escape model _ Hbm) by reflexivity.
  rewrite strip_prefix_app.
  change (safe prompt ++ "') AS RESP")
    with (safe prompt ++ String apostrophe ") AS RESP").
  rewrite (snowflake_literal_safe escape prompt _ Hbp) by reflexivity.
  reflexivity.
Qed.

(** X3.  Two calls with the same statement have the same model name and the
    same prompt, for model names without a single quote.  When moreover
    neither the model name nor the prompt holds a backslash, the statement
    is a faithful encoding of the call: Snowflake gets back the model name
    and the prompt, whatever quotes the prompt holds.  The doubling of
    line 36 does not cover the backslash: for the prompt made of one
    backslash the closing quote is taken by the escape and the literal has
    no end. *)
Theorem cortex_sql_round_trip (escape : ascii -> string)
  (model prompt : string) :
  PyStr.count_char apostrophe model = 0 ->
  (PyStr.count_char backslash model = 0 ->
   PyStr.count_char backslash prompt = 0 ->
   snowflake_call escape (cortex_sql model prompt) = Some (model, prompt))
  /\ (forall model' prompt',
         PyStr.count_char apostrophe model' = 0 ->
         cortex_sql model prompt = cortex_sql model' prompt' ->
         model = model' /\ prompt = prompt')
  /\ snowflake_call escape (cortex_sql "mistral-large2" "\") = None.
Proof.
  intros Hm. split; [|split].
  - intros Hbm Hbp. now apply snowflake_call_cortex_sql.
  - intros model' prompt' Hm' Heq.
    pose proof (parse_call_cortex_sql model prompt Hm) as H1.
    pose proof (parse_call_cortex_sql model' prompt' Hm') as H2.
    rewrite Heq, H2 in H1. now inversion H1.
  - reflexivity.
Qed.

Lemma cortex_sql_round_trip_witness :
  snowflake_call (fun d => String d EmptyString)
    (cortex_sql "llama3-70b" "what's the 'best' product?")
  = Some ("llama3-70b", "what's the 'best' product?").
Proof.
  exact (proj1 (cortex_sql_round_trip (fun d => String d EmptyString)
                  "llama3-70b" "what's the 'best' product?" eq_refl)
           eq_refl eq_refl).
Defined.

Lemma nth_models (i : nat) :
  In (nth i models "mistral-large2") models.
Proof.
  destruct i as [|[|[|i]]]; cbn; try tauto.
  destruct i; tauto.
Qed.

Lemma backslash_free_digits (u : Decimal.uint) :
  PyStr.count_char backslash (NilEmpty.string_of_uint u) = 0.
Proof. induction u; cbn; auto. Qed.

Lemma backslash_free_join (sep : string) (xs : list string) :
  PyStr.count_char backslash sep = 0 ->
  (forall x, In x xs -> PyStr.count_char backslash x = 0) ->
  PyStr.count_char backslash (PyStr.join sep xs) = 0.
Proof.
  intros Hsep. induction xs as [|x xs IH]; intros Hall; [reflexivity|].
  destruct xs as [|y xs].
  - cbn [PyStr.join]. apply Hall. now left.
  - change (PyStr.join sep (x :: y :: xs))
      with (x ++ sep ++ PyStr.join sep (y :: xs)).
    rewrite !count_char_app, Hsep, (Hall x (or_introl eq_refl)).
    rewrite IH; [reflexivity|]. intros z Hz. apply Hall. now right.
Qed.

(** The prompt holds a backslash only where the labels of the table or the
    user's text do. *)
Lemma backslash_free_prompt (df_reviews : DataFrame) (q : string) :
  (forall c, In c (columns df_reviews) -> PyStr.count_char backslash c = 0) ->
  PyStr.count_char backslash q = 0 ->
  PyStr.count_char backslash (prompt df_reviews q) = 0.
Proof.
  intros Hcols Hq. unfold prompt, context, PyStr.of_nat.
  rewrite !count_char_app, Hq, backslash_free_digits.
  rewrite (backslash_free_join ", " (columns df_reviews) eq_refl Hcols).
  reflexivity.
Qed.

(** X4.  The statements the page sends are faithful as long as neither the
    labels of the table nor the user's text hold a backslash: the model name
    comes from the three offered ones, none of which holds a single quote or
    a backslash, so whatever quotes the user typed, Snowflake gets back the
    selected model and the whole prompt, the user's text included unchanged.
    The user's text made of a backslash and a quote breaks the statement:
    the literal ends inside the text. *)
Theorem page_statement_is_faithful (escape : ascii -> string)
  (inp : inputs) (df_reviews : DataFrame) (q : string) :
  (forall c, In c (columns df_reviews) -> PyStr.count_char backslash c = 0) ->
  let model := nth (pick_model inp) models "mistral-large2" in
  In model models
  /\ (PyStr.count_char backslash q = 0 ->
      snowflake_call escape (cortex_sql model (prompt df_reviews q))
      = Some (model, prompt df_reviews q))
  /\ (exists before, prompt df_reviews q
                     = before ++ "User: " ++ q ++ newline ++ "Assistant:")
  /\ snowflake_call escape
       (cortex_sql "mistral-large2" (prompt (mkDF ["PRODUCT"] []) "\'"))
     = None.
Proof.
  intros Hcols model.
  assert (Hfree : forall m, In m models ->
                            PyStr.count_char apostrophe m = 0
                            /\ PyStr.count_char backslash m = 0).
  { intros m Hin. cbn in Hin.
    destruct Hin as [<-|[<-|[<-|[]]]]; split; reflexivity. }
  split; [apply nth_models|]. split; [|split].
  - intros Hq. destruct (Hfree model (nth_models _)) as [Hm Hbm].
    apply snowflake_call_cortex_sql; [exact Hm | exact Hbm |].
    now apply backslash_free_prompt.
  - exists (system ++ newline ++ newline ++ "Context: " ++ context df_reviews
            ++ newline ++ newline).
    unfold prompt. now rewrite !append_assoc.
  - vm_compute. reflexivity.
Qed.

Lemma page_statement_is_faithful_witness :
  snowflake_call (fun d => String d EmptyString)
    (cortex_sql "snowflake-arctic" (prompt reviews_sample "what's best?"))
  = Some ("snowflake-arctic", prompt reviews_sample "what's best?").
Proof.
  refine (proj1 (proj2 (page_statement_is_faithful
                          (fun d => String d EmptyString)
                          (mkInputs 0 1 None) reviews_sample "what's best?" _))
            eq_refl).
  intros c Hc. cbn in Hc.
  repeat (destruct Hc as [<-|Hc]; [reflexivity|]). contradiction.
Defined.

(** ** The caption *)

Lemma remove_comma_step (c : ascii) (s : string) :
  PyStr.replace_from 0 "," "" (String c s)
  = if Ascii.eqb c ","%char then PyStr.replace_from 0 "," "" s
    else String c (PyStr.replace_from 0 "," "" s).
Proof.
  cbn [PyStr.replace_from PyStr.startswith].
  rewrite (ascii_eqb_sym _ c), andb_true_r.
  destruct (Ascii.eqb c ","%char); reflexivity.
Qed.

Lemma remove_commas_group_thousands (digits : string) :
  comma_free digits = true ->
  PyStr.replace (group_thousands digits) "," "" = digits.
Proof.
  unfold PyStr.replace.
  induction digits as [|c rest IH]; [reflexivity|].
  cbn [comma_free group_thousands]. intros H.
  apply andb_true_iff in H. destruct H as [Hc Hrest].
  apply negb_true_iff in Hc.
  destruct (Nat.ltb 0 (String.length rest)
            && Nat.eqb (String.length rest mod 3) 0).
  - rewrite remove_comma_step, Hc.
    change ("," ++ group_thousands rest)
      with (String ","%char (group_thousands rest)).
    rewrite remove_comma_step. cbn [Ascii.eqb Bool.eqb]. now rewrite IH.
  - rewrite remove_comma_step, Hc. now rewrite IH.
Qed.

Lemma comma_free_digits (u : Decimal.uint) :
  comma_free (NilEmpty.string_of_uint u) = true.
Proof. induction u; cbn; auto. Qed.

(** X5.  The count in the caption reads as the number: taking the commas out of
    the grouped digits gives the decimal digits of the number back. *)
Theorem with_commas_round_trip (n : nat) :
  PyStr.replace (with_commas n) "," "" = PyStr.of_nat n.
Proof.
  unfold with_commas, PyStr.of_nat.
  apply remove_commas_group_thousands, comma_free_digits.
Qed.

(** ** What the charts depend on *)

Lemma field_same_columns (name : string) (df df' : DataFrame) (row : list cell) :
  columns df' = columns df -> field name df' row = field name df row.
Proof. intros H. unfold field. now rewrite H. Qed.

(** The series of means, the histogram sample and the option list only read
    the products and the coerced scores: a table with the same labels whose
    rows are the rows of [df] changed in other places gives the same. *)
Lemma charts_read_two_columns (parse_number : string -> option Q)
  (df df' : DataFrame) (g : list cell -> list cell) :
  columns df' = columns df ->
  rows df' = map g (rows df) ->
  (forall row, field "PRODUCT" df (g row) = field "PRODUCT" df row) ->
  (forall row,
      to_numeric parse_number (field "SENTIMENT_SCORE" df (g row))
      = to_numeric parse_number (field "SENTIMENT_SCORE" df row)) ->
  product_sent parse_number df' = product_sent parse_number df
  /\ scores parse_number df' = scores parse_number df
  /\ product_options df' = product_options df.
Proof.
  intros Hcols Hrows Hprod Hscore.
  assert (Hcol : column "PRODUCT" df' = column "PRODUCT" df).
  { unfold column. rewrite Hrows, map_map. apply map_ext. intros row.
    now rewrite (field_same_columns _ df df' _ Hcols). }
  split; [|split].
  - unfold product_sent, groupby_mean. rewrite Hcol. f_equal.
    apply map_ext. intros k. f_equal. f_equal.
    unfold group_scores, group_rows. rewrite Hrows.
    rewrite filter_map_swap, map_map.
    rewrite (filter_ext _ (fun row => cell_is k (field "PRODUCT" df row)))
      by (intros row; now rewrite (field_same_columns _ df df' _ Hcols), Hprod).
    apply map_ext. intros row.
    now rewrite (field_same_columns _ df df' _ Hcols).
  - unfold scores, column. rewrite Hrows, !map_map.
    f_equal. apply map_ext. intros row.
    now rewrite (field_same_columns _ df df' _ Hcols).
  - unfold product_options. now rewrite Hcol.
Qed.

Lemma map_column_rows (c : string) (f : cell -> cell) (df : DataFrame) :
  columns (map_column c f df) = columns df
  /\ exists g,
      rows (map_column c f df) = map g (rows df)
      /\ forall name row,
          name <> c -> field name df (g row) = field name df row.
Proof.
  unfold map_column.
  destruct (index_of c (columns df)) as [i|] eqn:Hi.
  - split; [reflexivity|]. exists (update_at i f). split; [reflexivity|].
    intros name row Hne. unfold field.
    destruct (index_of name (columns df)) as [j|] eqn:Hj; [|reflexivity].
    apply cell_at_update_other. intros ->.
    apply Hne. now apply (index_of_inj name c (columns df) j).
  - split; [reflexivity|]. exists (fun row => row). split.
    + now rewrite map_id.
    + reflexivity.
Qed.

Lemma date_step_keeps_charts (parse_number : string -> option Q)
  (f : cell -> cell) (c : string) (df : DataFrame) :
  c <> "PRODUCT" -> c <> "SENTIMENT_SCORE" ->
  let df' := if has_column c df then map_column c f df else df in
  columns df' = columns df
  /\ len df' = len df
  /\ product_sent parse_number df' = product_sent parse_number df
  /\ scores parse_number df' = scores parse_number df
  /\ product_options df' = product_options df.
Proof.
  intros Hp Hs. cbv zeta.
  destruct (has_column c df); [|repeat split; reflexivity].
  destruct (map_column_rows c f df) as (Hcols & g & Hrows & Hg).
  split; [exact Hcols|]. split.
  - unfold len. now rewrite Hrows, length_map.
  - apply (charts_read_two_columns parse_number df _ g Hcols Hrows).
    + intros row. apply Hg. congruence.
    + intros row. rewrite Hg; [reflexivity | congruence].
Qed.

(** X6.  The parsing of the date columns changes nothing the page draws from the
    products and the scores: the table keeps its labels and its number of
    rows, and the series of means, the histogram sample and the option list
    of the filter are those of the table as loaded. *)
Theorem parse_dates_keeps_charts (parse_number : string -> option Q)
  (to_datetime : cell -> cell) (df : DataFrame) :
  columns (parse_dates to_datetime df) = columns df
  /\ len (parse_dates to_datetime df) = len df
  /\ product_sent parse_number (parse_dates to_datetime df)
     = product_sent parse_number df
  /\ scores parse_number (parse_dates to_datetime df)
     = scores parse_number df
  /\ product_options (parse_dates to_datetime df) = product_options df.
Proof.
  unfold parse_dates. cbn [fold_left].
  destruct (date_step_keeps_charts parse_number to_datetime "REVIEW_DATE" df)
    as (C1 & L1 & P1 & S1 & O1); [discriminate | discriminate |].
  set (d1 := if has_column "REVIEW_DATE" df
             then map_column "REVIEW_DATE" to_datetime df else df) in *.
  destruct (date_step_keeps_charts parse_number to_datetime "SHIPPING_DATE" d1)
    as (C2 & L2 & P2 & S2 & O2); [discriminate | discriminate |].
  repeat split; congruence.
Qed.

(** ** The series of means *)

Lemma mean_leb_total (a b : option Q) :
  mean_leb a b = false -> mean_leb b a = true.
Proof.
  destruct a as [x|], b as [y|]; cbn; try congruence.
  intros H. qbool. apply Qle_bool_iff. qlra.
Qed.

Lemma insert_by_mean_ordered (x : value * option Q)
  (l : list (value * option Q)) :
  mean_ordered l -> mean_ordered (insert_by_mean x l).
Proof.
  unfold mean_ordered. induction l as [|y l IH]; intros Hs.
  - repeat constructor.
  - cbn [insert_by_mean]. destruct (mean_leb (snd x) (snd y)) eqn:Hxy.
    + constructor; [exact Hs | now constructor].
    + apply Sorted_inv in Hs. destruct Hs as [Hl Hhd].
      constructor; [now apply IH|].
      destruct l as [|z l]; cbn [insert_by_mean].
      * constructor. now apply mean_leb_total.
      * destruct (mean_leb (snd x) (snd z)); constructor;
          [now apply mean_leb_total | now inversion Hhd].
Qed.

Lemma insert_by_mean_perm (x : value * option Q) (l : list (value * option Q)) :
  Permutation (insert_by_mean x l) (x :: l).
Proof.
  induction l as [|y l IH]; [reflexivity|].
  cbn [insert_by_mean]. destruct (mean_leb (snd x) (snd y)); [reflexivity|].
  rewrite IH. apply perm_swap.
Qed.

Lemma sort_values_perm (l : list (value * option Q)) :
  Permutation (sort_values l) l.
Proof.
  induction l as [|x l IH]; [reflexivity|].
  cbn [sort_values fold_right]. fold (sort_values l).
  rewrite insert_by_mean_perm. now constructor.
Qed.

Lemma sort_values_ordered (l : list (value * option Q)) :
  mean_ordered (sort_values l).
Proof.
  induction l as [|x l IH]; [constructor|].
  cbn [sort_values fold_right]. fold (sort_values l).
  now apply insert_by_mean_ordered.
Qed.

(** X7.  The series given to the first chart is in ascending order of mean, the
    products without any numeric score last, and it has one entry for each
    distinct product present in the table and no other entry: its labels are
    a rearrangement of the distinct present products. *)
Theorem product_sent_ordered_one_per_product
  (parse_number : string -> option Q) (df : DataFrame) :
  mean_ordered (product_sent parse_number df)
  /\ Permutation (map fst (product_sent parse_number df))
       (unique (dropna (column "PRODUCT" df)))
  /\ distinct (unique (dropna (column "PRODUCT" df)))
  /\ (forall v, In (Some v) (column "PRODUCT" df) ->
                exists k m, In (k, m) (product_sent parse_number df)
                            /\ value_eqb v k = true)
  /\ (forall k m, In (k, m) (product_sent parse_number df) ->
                  In (Some k) (column "PRODUCT" df)).
Proof.
  split; [apply sort_values_ordered|]. split; [|split; [|split]].
  - unfold product_sent. rewrite (sort_values_perm (groupby_mean _ _)).
    unfold groupby_mean. rewrite map_map. cbn [fst]. now rewrite map_id.
  - apply distinct_unique.
  - intros v Hv. apply dropna_In in Hv.
    destruct (unique_complete _ _ Hv) as (k & Hk & Heq).
    exists k, (mean (group_scores parse_number df k)). split; [|exact Heq].
    unfold product_sent. apply sort_values_In.
    unfold groupby_mean. apply in_map_iff. now exists k.
  - intros k m Hin. now apply (product_sent_In parse_number df k m).
Qed.

Lemma product_sent_ordered_one_per_product_witness :
  exists k m,
    In (k, m) (product_sent parse_sample scores_sample)
    /\ value_eqb (VStr "Skis") k = true.
Proof.
  destruct (product_sent_ordered_one_per_product parse_sample scores_sample)
    as (_ & _ & _ & Hpresent & _).
  apply Hpresent. cbn. tauto.
Defined.

(** ** When a chart is drawn *)

(** X9.  The first block always returns, adds two events, and draws its chart
    exactly when the table has both columns and some row has a product. *)
Theorem mean_chart_iff (parse_number : string -> option Q)
  (df_reviews : DataFrame) (w : world) :
  exists e,
    average_sentiment_by_product parse_number df_reviews w
    = (Ok tt,
       mkWorld (chat_msgs w)
         (screen w ++ [subheader "Average Sentiment by Product"; e])%list)
    /\ (is_chart e = true
        <-> has_column "PRODUCT" df_reviews = true
            /\ has_column "SENTIMENT_SCORE" df_reviews = true
            /\ exists row, In row (rows df_reviews)
                           /\ field "PRODUCT" df_reviews row <> None).
Proof.
  unfold average_sentiment_by_product.
  destruct (has_column "PRODUCT" df_reviews) eqn:Hp;
    [destruct (has_column "SENTIMENT_SCORE" df_reviews) eqn:Hs|];
    cbn [andb].
  - destruct (product_sent parse_number df_reviews) as [|g gs] eqn:Hsent;
      cbn [List.length Nat.ltb Nat.leb].
    + eexists. split; [run_block; reflexivity|]. cbn [is_chart].
      split; [discriminate|]. intros (_ & _ & row & Hrow & Hne).
      elim Hne.
      now apply (proj1 (product_sent_nil_iff parse_number df_reviews) Hsent).
    + eexists. split; [run_block; reflexivity|]. cbn [is_chart].
      split; [|reflexivity]. intros _. split; [reflexivity|].
      split; [reflexivity|].
      destruct (product_sent_In parse_number df_reviews (fst g) (snd g))
        as [_ Hin].
      { rewrite Hsent. left. now destruct g. }
      unfold column in Hin. apply in_map_iff in Hin.
      destruct Hin as (row & Hf & Hrow). exists row. split; [exact Hrow|].
      congruence.
  - eexists. split; [run_block; reflexivity|]. cbn [is_chart].
    split; [discriminate | intros (_ & H & _); discriminate].
  - eexists. split; [run_block; reflexivity|]. cbn [is_chart].
    split; [discriminate | intros (H & _); discriminate].
Qed.

Lemma mean_chart_iff_witness :
  exists e,
    snd (average_sentiment_by_product no_numbers reviews_sample empty_world)
    = mkWorld None [subheader "Average Sentiment by Product"; e]
    /\ is_chart e = true.
Proof.
  destruct (mean_chart_iff no_numbers reviews_sample empty_world)
    as (e & Hrun & Hiff).
  exists e. split; [now rewrite Hrun|].
  apply Hiff. split; [reflexivity|]. split; [reflexivity|].
  exists [Some (VStr "Skis"); Some (VNum (1 # 2))].
  split; [now left | discriminate].
Defined.

(** ** The filter and the two charts together *)



(** ** When the option list can be built *)

Lemma value_lt_ok_same_type (a b : value) (r : bool) :
  value_lt a b = Ok r -> is_text a = is_text b.
Proof. destruct a, b; cbn; congruence. Qed.

Lemma value_lt_raise_class (a b : value) (e : exn) :
  value_lt a b = Raise e -> exn_class e = "TypeError".
Proof. destruct a, b; cbn; intros [= <-]; reflexivity. Qed.

Lemma insert_raise_class (x : value) (l : list value) (e : exn) :
  insert x l = Raise e -> exn_class e = "TypeError".
Proof.
  induction l as [|y l IH]; cbn [insert]; [discriminate|].
  destruct (value_lt y x) as [[|]|e'] eqn:Hlt; cbn [rbind].
  - destruct (insert x l) as [r|e']; cbn [rbind]; [discriminate|].
    intros [= <-]. now apply IH.
  - discriminate.
  - intros [= <-]. now apply (value_lt_raise_class y x).
Qed.

Lemma sorted_raise_class (xs : list value) (e : exn) :
  sorted xs = Raise e -> exn_class e = "TypeError".
Proof.
  induction xs as [|x xs IH]; cbn [sorted]; [discriminate|].
  destruct (sorted xs) as [l|e']; cbn [rbind].
  - apply insert_raise_class.
  - intros [= <-]. now apply IH.
Qed.

Lemma sorted_ok_same_type (xs l : list value) :
  sorted xs = Ok l ->
  forall a b, In a xs -> In b xs -> is_text a = is_text b.
Proof.
  revert l. induction xs as [|x xs IH]; intros l Hs a b Ha Hb; [destruct Ha|].
  cbn [sorted] in Hs.
  destruct (sorted xs) as [l'|e] eqn:Hl'; cbn [rbind] in Hs; [|discriminate].
  assert (Hx : forall y, In y xs -> is_text y = is_text x).
  { intros y Hy.
    destruct l' as [|z l''].
    - apply (sorted_In xs [] Hl') in Hy. destruct Hy.
    - cbn [insert] in Hs.
      destruct (value_lt z x) as [r|e] eqn:Hlt; cbn [rbind] in Hs;
        [|discriminate].
      apply value_lt_ok_same_type in Hlt. rewrite <- Hlt.
      apply (IH _ eq_refl); [exact Hy|].
      apply (sorted_In xs (z :: l'') Hl'). now left. }
  destruct Ha as [<-|Ha], Hb as [<-|Hb].
  - reflexivity.
  - symmetry. now apply Hx.
  - now apply Hx.
  - now apply (IH l' eq_refl).
Qed.

Lemma value_eqb_same_type (a b : value) :
  value_eqb a b = true -> is_text a = is_text b.
Proof. destruct a, b; cbn; congruence. Qed.

(** X12.  The option list of the filter can be built exactly when the present
    products are all texts or all numbers; on a column that holds both,
    [sorted] raises [TypeError] and the block stops there. *)
Theorem product_options_iff_one_type (df_reviews : DataFrame) :
  ((exists opts, product_options df_reviews = Ok opts)
   <-> forall a b,
        In (Some a) (column "PRODUCT" df_reviews) ->
        In (Some b) (column "PRODUCT" df_reviews) ->
        is_text a = is_text b)
  /\ (forall e, product_options df_reviews = Raise e ->
                exn_class e = "TypeError").
Proof.
  unfold product_options. split; [split|].
  - intros [opts Hopts] a b Ha Hb.
    destruct (sorted (unique (dropna (column "PRODUCT" df_reviews))))
      as [l|e] eqn:Hl; cbn [rbind] in Hopts; [|discriminate].
    apply dropna_In in Ha, Hb.
    destruct (unique_complete _ _ Ha) as (a' & Ha' & Eqa).
    destruct (unique_complete _ _ Hb) as (b' & Hb' & Eqb).
    rewrite (value_eqb_same_type _ _ Eqa), (value_eqb_same_type _ _ Eqb).
    now apply (sorted_ok_same_type _ l Hl).
  - intros Hsame.
    destruct (unique (dropna (column "PRODUCT" df_reviews))) as [|x xs] eqn:Hu.
    + now eexists.
    + destruct (sorted_same_type (x :: xs) (is_text x)) as [l Hl].
      * intros y Hy. rewrite <- Hu in Hy.
        assert (Hx : In x (unique (dropna (column "PRODUCT" df_reviews))))
          by (rewrite Hu; now left).
        apply unique_sound, dropna_In in Hy, Hx. now apply Hsame.
      * rewrite Hl. now eexists.
  - intros e He.
    destruct (sorted (unique (dropna (column "PRODUCT" df_reviews))))
      as [l|e'] eqn:Hl; cbn [rbind] in He; [discriminate|].
    injection He as <-. now apply (sorted_raise_class _ _ Hl).
Qed.

Lemma product_options_iff_one_type_witness :
  (exists opts, product_options reviews_sample = Ok opts)
  /\ exn_class (match product_options mixed_sample with
                | Raise e => e
                | Ok _ => Exn "" ""
                end) = "TypeError".
Proof.
  split.
  - apply (proj2 (proj1 (product_options_iff_one_type reviews_sample))).
    intros a b Ha Hb. cbn in Ha, Hb.
    repeat (destruct Ha as [Ha|Ha]; [try discriminate Ha; injection Ha as <-|]);
      try contradiction;
      repeat (destruct Hb as [Hb|Hb];
              [try discriminate Hb; injection Hb as <-|]);
      try contradiction; reflexivity.
  - destruct (product_options mixed_sample) as [opts|e] eqn:H;
      [discriminate H|].
    apply (proj2 (product_options_iff_one_type mixed_sample) e H).
Defined.

(** ** The bars of the histogram *)




(** ** The page above the chat *)

Lemma average_sentiment_event (parse_number : string -> option Q)
  (df : DataFrame) :
  exists e,
    is_bubble e = false
    /\ draws (average_sentiment_by_product parse_number df) (Ok tt)
         [subheader "Average Sentiment by Product"; e].
Proof.
  unfold average_sentiment_by_product, draws.
  destruct (has_column "PRODUCT" df && has_column "SENTIMENT_SCORE" df);
    [destruct (Nat.ltb 0 (List.length (product_sent parse_number df)))|];
    eexists; (split; [|intros w; run_block; reflexivity]); reflexivity.
Qed.

Lemma filter_by_product_raise (inp : inputs) (df : DataFrame) (e : exn) :
  has_column "PRODUCT" df = true ->
  product_options df = Raise e ->
  draws (filter_by_product inp df) (Raise e) [subheader "Filter by Product"].
Proof.
  intros H He w. unfold filter_by_product. rewrite H, He. run_block.
  reflexivity.
Qed.

Lemma page_load_raise (parse_number : string -> option Q)
  (to_datetime : cell -> cell) (run_sql : string -> result DataFrame)
  (inp : inputs) (e : exn) :
  run_sql load_query = Raise e ->
  draws (page parse_number to_datetime run_sql inp) (Raise e)
    [title "Avalanche Streamlit App (Cloud)"].
Proof.
  unfold load_query. intros H w. unfold page. rewrite H. run_block.
  reflexivity.
Qed.

Lemma page_filter_raise (parse_number : string -> option Q)
  (to_datetime : cell -> cell) (run_sql : string -> result DataFrame)
  (inp : inputs) (df0 : DataFrame) (e : exn) (evf : list ui_event) :
  run_sql load_query = Ok df0 ->
  draws (filter_by_product inp (parse_dates to_datetime df0)) (Raise e) evf ->
  exists e1,
    draws (average_sentiment_by_product parse_number
             (parse_dates to_datetime df0)) (Ok tt)
      [subheader "Average Sentiment by Product"; e1]
    /\ draws (page parse_number to_datetime run_sql inp) (Raise e)
         ([title "Avalanche Streamlit App (Cloud)";
           caption ("Loaded " ++ with_commas (len (parse_dates to_datetime df0))
                    ++ " rows from REVIEWS_WITH_SENTIMENT");
           subheader "Average Sentiment by Product"; e1] ++ evf)%list.
Proof.
  unfold load_query. intros Hload Hf.
  destruct (average_sentiment_event parse_number (parse_dates to_datetime df0))
    as (e1 & _ & H1).
  exists e1. split; [exact H1|].
  intros w. unfold page. rewrite Hload.
  unfold bind at 1, emit at 1. unfold bind at 1, lift at 1.
  unfold bind at 1, emit at 1.
  unfold bind at 1. rewrite H1.
  unfold bind at 1. rewrite Hf.
  cbn [chat_msgs screen]. repeat (rewrite <- app_assoc; cbn [app]).
  reflexivity.
Qed.

(** X14.  When the query that loads the reviews raises, the run raises the same
    exception right after the title: nothing else is drawn, the chat is not
    reached and the stored conversation is left as it was. *)
Theorem load_failure_stops_page (parse_number : string -> option Q)
  (to_datetime : cell -> cell) (i : interaction) (w : world) (e : exn) :
  backend i load_query = Raise e ->
  rerun parse_number to_datetime i w
  = (Raise e, mkWorld (chat_msgs w) [title "Avalanche Streamlit App (Cloud)"]).
Proof.
  intros H. unfold rerun.
  now rewrite (page_load_raise parse_number to_datetime _ (act i) e H).
Qed.

Lemma load_failure_stops_page_witness :
  rerun no_numbers keep
    (mkInteraction (mkInputs 0 0 (Some "hi"))
       (fun _ => Raise (Exn "SnowparkSQLException" "no such table")))
    (mkWorld (Some [("user", Some (VStr "a"))]) [info "old"])
  = (Raise (Exn "SnowparkSQLException" "no such table"),
     mkWorld (Some [("user", Some (VStr "a"))])
       [title "Avalanche Streamlit App (Cloud)"]).
Proof.
  apply (load_failure_stops_page no_numbers keep
           (mkInteraction (mkInputs 0 0 (Some "hi"))
              (fun _ => Raise (Exn "SnowparkSQLException" "no such table")))).
  reflexivity.
Defined.

(** X15.  When the product column holds both a text and a number, the run raises
    [TypeError] in the filter block: the first chart block and the heading
    of the filter are drawn, the table, the histogram and the chat are not,
    and the stored conversation is left as it was. *)
Theorem mixed_products_stop_page (parse_number : string -> option Q)
  (to_datetime : cell -> cell) (i : interaction) (w : world)
  (df0 : DataFrame) (a b : value) :
  backend i load_query = Ok df0 ->
  In (Some a) (column "PRODUCT" df0) ->
  In (Some b) (column "PRODUCT" df0) ->
  is_text a <> is_text b ->
  exists e e1,
    exn_class e = "TypeError"
    /\ rerun parse_number to_datetime i w
       = (Raise e,
          mkWorld (chat_msgs w)
            [title "Avalanche Streamlit App (Cloud)";
             caption ("Loaded " ++ with_commas (len df0)
                      ++ " rows from REVIEWS_WITH_SENTIMENT");
             subheader "Average Sentiment by Product"; e1;
             subheader "Filter by Product"]).
Proof.
  intros Hload Ha Hb Hab.
  destruct (date_step_keeps_charts parse_number to_datetime "REVIEW_DATE" df0)
    as (C1 & L1 & _ & _ & O1); [discriminate | discriminate |].
  set (d1 := if has_column "REVIEW_DATE" df0
             then map_column "REVIEW_DATE" to_datetime df0 else df0) in *.
  destruct (date_step_keeps_charts parse_number to_datetime "SHIPPING_DATE" d1)
    as (C2 & L2 & _ & _ & O2); [discriminate | discriminate |].
  change (if has_column "SHIPPING_DATE" d1
          then map_column "SHIPPING_DATE" to_datetime d1 else d1)
    with (parse_dates to_datetime df0) in *.
  assert (Hcol : has_column "PRODUCT" (parse_dates to_datetime df0) = true).
  { unfold has_column. rewrite C2, C1.
    unfold column in Ha. apply in_map_iff in Ha. destruct Ha as (row & Hf & _).
    unfold field in Hf.
    destruct (index_of "PRODUCT" (columns df0));
      [reflexivity | discriminate Hf]. }
  assert (HO : product_options df0
               = product_options (parse_dates to_datetime df0))
    by congruence.
  clear O1 O2.
  destruct (product_options (parse_dates to_datetime df0)) as [opts|e] eqn:Ho.
  - exfalso. apply Hab.
    unfold product_options in HO.
    destruct (sorted (unique (dropna (column "PRODUCT" df0)))) as [l|e'] eqn:Hl;
      cbn [rbind] in HO; [|discriminate HO].
    apply dropna_In in Ha, Hb.
    destruct (unique_complete _ _ Ha) as (a' & Ha' & Eqa).
    destruct (unique_complete _ _ Hb) as (b' & Hb' & Eqb).
    rewrite (value_eqb_same_type _ _ Eqa), (value_eqb_same_type _ _ Eqb).
    now apply (sorted_ok_same_type _ l Hl).
  - destruct (page_filter_raise parse_number to_datetime (backend i) (act i)
                df0 e _ Hload
                (filter_by_product_raise (act i) _ e Hcol Ho))
      as (e1 & _ & Hpage).
    exists e, e1. split.
    + unfold product_options in Ho.
      destruct (sorted (unique (dropna (column "PRODUCT"
                                          (parse_dates to_datetime df0)))))
        as [l|e'] eqn:Hl; cbn [rbind] in Ho; [discriminate Ho|].
      injection Ho as <-. now apply (sorted_raise_class _ _ Hl).
    + unfold rerun. rewrite Hpage. cbn [chat_msgs screen app].
      now rewrite L2, L1.
Qed.

Lemma mixed_products_stop_page_witness :
  exists e e1,
    exn_class e = "TypeError"
    /\ rerun no_numbers keep
         (mkInteraction (mkInputs 0 0 (Some "hi")) (fun _ => Ok mixed_sample))
         empty_world
       = (Raise e,
          mkWorld None
            [title "Avalanche Streamlit App (Cloud)";
             caption "Loaded 2 rows from REVIEWS_WITH_SENTIMENT";
             subheader "Average Sentiment by Product"; e1;
             subheader "Filter by Product"]).
Proof.
  apply (mixed_products_stop_page no_numbers keep
           (mkInteraction (mkInputs 0 0 (Some "hi")) (fun _ => Ok mixed_sample))
           empty_world mixed_sample (VStr "Boots") (VNum 7)).
  - reflexivity.
  - now left.
  - right. now left.
  - discriminate.
Defined.

(** ** The chat box *)

Lemma new_turns_same_shape (run_sql : string -> result DataFrame)
  (inp : inputs) (df df' : DataFrame) :
  columns df' = columns df -> len df' = len df ->
  new_turns run_sql inp df' = new_turns run_sql inp df.
Proof.
  intros Hc Hl. unfold new_turns, prompt, context. now rewrite Hc, Hl.
Qed.

Lemma filter_bubbles (l : list turn) :
  filter is_bubble (map bubble l) = map bubble l.
Proof. induction l as [|t l IH]; [reflexivity|]. cbn. now rewrite IH. Qed.

(** X16.  What the chat box stores depends on the dashboard only through the
    labels and the number of rows of the loaded table: two runs of the chat
    box against the same database, with the same selected model and the same
    submitted text, on tables with the same labels and as many rows, store
    the same conversation, whichever product is selected and whatever the
    cells of the tables hold. *)
Theorem chat_ignores_product_selection
  (run_sql : string -> result DataFrame) (a a' : inputs)
  (df df' : DataFrame) (w : world) :
  pick_model a = pick_model a' ->
  user_q a = user_q a' ->
  columns df = columns df' ->
  len df = len df' ->
  history (snd (cortex_chatbox run_sql a df w))
  = history (snd (cortex_chatbox run_sql a' df' w)).
Proof.
  intros Hm Hq Hc Hl. rewrite !cortex_chatbox_run. cbn [snd].
  rewrite !history_stored. f_equal.
  rewrite (new_turns_same_shape run_sql a' df df') by congruence.
  unfold new_turns. now rewrite Hm, Hq.
Qed.

Lemma chat_ignores_product_selection_witness :
  history (snd (cortex_chatbox (answering "b") (mkInputs 0 1 (Some "a"))
                  reviews_sample empty_world))
  = history (snd (cortex_chatbox (answering "b") (mkInputs 2 1 (Some "a"))
                    (mkDF ["PRODUCT"; "SENTIMENT_SCORE"]
                       (repeat [Some (VStr "Skis"); None] 5))
                    empty_world)).
Proof.
  apply (chat_ignores_product_selection (answering "b")
           (mkInputs 0 1 (Some "a")) (mkInputs 2 1 (Some "a"))
           reviews_sample
           (mkDF ["PRODUCT"; "SENTIMENT_SCORE"]
              (repeat [Some (VStr "Skis"); None] 5))
           empty_world); reflexivity.
Defined.

(** X17.  A run of the chat box draws the whole stored conversation in its
    order: the conversation stored after it is the old one followed by the
    new turns, and the chat messages it puts on the screen are the turns
    stored after it, the old ones first, then the new ones. *)
Theorem transcript_drawn_in_stored_order
  (run_sql : string -> result DataFrame) (inp : inputs)
  (df_reviews : DataFrame) (w : world) :
  let w' := snd (cortex_chatbox run_sql inp df_reviews w) in
  history w' = (history w ++ new_turns run_sql inp df_reviews)%list
  /\ filter is_bubble (skipn (List.length (screen w)) (screen w'))
     = map bubble (history w').
Proof.
  cbv zeta. rewrite cortex_chatbox_run. cbn [snd screen].
  rewrite history_stored. split; [reflexivity|].
  rewrite skipn_app, skipn_all, Nat.sub_diag. cbn [skipn app].
  cbn [filter is_bubble].
  rewrite !filter_app, !filter_bubbles. cbn [filter is_bubble app].
  now rewrite filter_bubbles, map_app.
Qed.

(** X18.  Without a submitted text (none, or an empty one) the chat box asks the
    database nothing: it sets the conversation key if it was absent, draws
    the stored turns and the input, and stores no turn. *)
Theorem no_text_no_turn (run_sql : string -> result DataFrame) (inp : inputs)
  (df_reviews : DataFrame) (w : world) :
  user_q inp = None \/ user_q inp = Some EmptyString ->
  cortex_chatbox run_sql inp df_reviews w
  = (Ok tt,
     mkWorld (Some (history w))
       (screen w
        ++ [markdown "---"; header "💬 Avalanche Assistant (Cortex)";
            selectbox "Cortex model" (map VStr models)]
        ++ map bubble (history w)
        ++ [chat_input "Ask a question (I can also draft Snowflake SQL)"])%list).
Proof.
  intros Hq. rewrite cortex_chatbox_run.
  assert (Hnew : new_turns run_sql inp df_reviews = []).
  { unfold new_turns. destruct Hq as [-> | ->]; reflexivity. }
  rewrite Hnew. cbn [map]. now rewrite !app_nil_r.
Qed.

Lemma no_text_no_turn_witness :
  chat_msgs (snd (cortex_chatbox failing_backend (mkInputs 0 0 (Some ""))
                    reviews_sample empty_world)) = Some [].
Proof.
  rewrite (no_text_no_turn failing_backend (mkInputs 0 0 (Some ""))
             reviews_sample empty_world (or_intror eq_refl)).
  reflexivity.
Defined.

(** X19.  When the completion returns a table with at least one column and one
    row, the reply stored and drawn is the first cell of the first row,
    whatever else the table holds. *)
Theorem completion_reply_is_first_cell
  (run_sql : string -> result DataFrame) (inp : inputs)
  (df_reviews : DataFrame) (w : world) (q : string) (t : DataFrame)
  (r : list cell) (rs : list (list cell)) :
  user_q inp = Some q ->
  q <> EmptyString ->
  run_sql (cortex_sql (nth (pick_model inp) models "mistral-large2")
             (prompt df_reviews q)) = Ok t ->
  columns t <> [] ->
  rows t = r :: rs ->
  let w' := snd (cortex_chatbox run_sql inp df_reviews w) in
  fst (cortex_chatbox run_sql inp df_reviews w) = Ok tt
  /\ chat_msgs w'
     = Some (history w
             ++ [("user", Some (VStr q)); ("assistant", cell_at 0 r)])%list
  /\ filter is_bubble (skipn (List.length (screen w)) (screen w'))
     = map bubble (history w
                   ++ [("user", Some (VStr q)); ("assistant", cell_at 0 r)]).
Proof.
  intros Hq Hne Hsql Hcols Hrows. cbv zeta.
  assert (Hnew : new_turns run_sql inp df_reviews
                 = [("user", Some (VStr q)); ("assistant", cell_at 0 r)]).
  { unfold new_turns, cortex_complete. rewrite Hq, Hsql. cbn [rbind].
    unfold iloc_0_0. rewrite Hrows.
    destruct (columns t); [congruence|].
    destruct (String.eqb_spec q EmptyString); [contradiction | reflexivity]. }
  rewrite cortex_chatbox_run, Hnew. cbn [fst snd chat_msgs screen].
  split; [reflexivity|]. split; [reflexivity|].
  rewrite skipn_app, Nat.sub_diag, skipn_all. cbn [skipn app].
  repeat (cbn [filter is_bubble app]; rewrite ?filter_app, ?filter_bubbles).
  now rewrite map_app.
Qed.

Lemma completion_reply_is_first_cell_witness :
  chat_msgs
    (snd (cortex_chatbox
            (fun _ => Ok (mkDF ["RESP"; "EXTRA"]
                            [[Some (VStr "42 rows"); Some (VNum 1)];
                             [Some (VStr "ignored"); None]]))
            (mkInputs 0 2 (Some "how many?")) reviews_sample empty_world))
  = Some [("user", Some (VStr "how many?"));
          ("assistant", Some (VStr "42 rows"))].
Proof.
  destruct (completion_reply_is_first_cell
              (fun _ => Ok (mkDF ["RESP"; "EXTRA"]
                              [[Some (VStr "42 rows"); Some (VNum 1)];
                               [Some (VStr "ignored"); None]]))
              (mkInputs 0 2 (Some "how many?")) reviews_sample empty_world
              "how many?" _ _ _ eq_refl ltac:(discriminate) eq_refl
              ltac:(discriminate) eq_refl) as (_ & Hmsgs & _).
  rewrite Hmsgs. reflexivity.
Defined.

(** X20.  When the completion returns a table with its column and no row,
    [cortex_complete] raises [IndexError] and the chat box does not raise:
    the reply is the apology that carries the text of that exception. *)
Theorem empty_completion_becomes_apology
  (run_sql : string -> result DataFrame) (inp : inputs)
  (df_reviews : DataFrame) (w : world) (q : string) (t : DataFrame) :
  user_q inp = Some q ->
  q <> EmptyString ->
  run_sql (cortex_sql (nth (pick_model inp) models "mistral-large2")
             (prompt df_reviews q)) = Ok t ->
  columns t <> [] ->
  rows t = [] ->
  cortex_complete run_sql (nth (pick_model inp) models "mistral-large2")
    (prompt df_reviews q)
  = Raise (Exn "IndexError" "index 0 is out of bounds for axis 0 with size 0")
  /\ fst (cortex_chatbox run_sql inp df_reviews w) = Ok tt
  /\ chat_msgs (snd (cortex_chatbox run_sql inp df_reviews w))
     = Some (history w
             ++ [("user", Some (VStr q));
                 ("assistant",
                  Some (VStr ("Sorry, Cortex call failed: "
                              ++ "index 0 is out of bounds for axis 0 with size 0")))])%list.
Proof.
  intros Hq Hne Hsql Hcols Hrows.
  assert (Hc : cortex_complete run_sql
                 (nth (pick_model inp) models "mistral-large2")
                 (prompt df_reviews q)
               = Raise (Exn "IndexError"
                          "index 0 is out of bounds for axis 0 with size 0")).
  { unfold cortex_complete. rewrite Hsql. cbn [rbind]. unfold iloc_0_0.
    rewrite Hrows. destruct (columns t); reflexivity. }
  split; [exact Hc|].
  rewrite cortex_chatbox_run. cbn [fst snd chat_msgs].
  split; [reflexivity|].
  unfold new_turns. rewrite Hq, Hc.
  destruct (String.eqb_spec q EmptyString); [contradiction | reflexivity].
Qed.

Lemma empty_completion_becomes_apology_witness :
  chat_msgs (snd (cortex_chatbox (fun _ => Ok (mkDF ["RESP"] []))
                    (mkInputs 0 0 (Some "hi")) reviews_sample empty_world))
  = Some [("user", Some (VStr "hi"));
          ("assistant",
           Some (VStr "Sorry, Cortex call failed: index 0 is out of bounds for axis 0 with size 0"))].
Proof.
  destruct (empty_completion_becomes_apology (fun _ => Ok (mkDF ["RESP"] []))
              (mkInputs 0 0 (Some "hi")) reviews_sample empty_world "hi"
              (mkDF ["RESP"] []) eq_refl ltac:(discriminate) eq_refl
              ltac:(discriminate) eq_refl) as (_ & _ & Hmsgs).
  rewrite Hmsgs. reflexivity.
Defined.

(** ** The shape of the conversation *)

Lemma exchanges_app (l l' : list turn) :
  exchanges l -> exchanges l' -> exchanges (l ++ l').
Proof.
  intros Hl Hl'.
  assert (H : forall n l0, List.length l0 <= n -> exchanges l0 ->
                           exchanges (l0 ++ l')).
  { induction n as [|n IH]; intros [|u [|a l0]] Hlen He; cbn in *;
      try exact Hl'; try lia; try contradiction.
    destruct He as (Hu & Ha & He). repeat split; try assumption.
    apply IH; [lia | exact He]. }
  now apply (H (List.length l)).
Qed.

Lemma exchanges_counts (l : list turn) :
  exchanges l ->
  count_role "user" l = count_role "assistant" l
  /\ List.length l = 2 * count_role "user" l.
Proof.
  assert (H : forall n l0, List.length l0 <= n -> exchanges l0 ->
                           count_role "user" l0 = count_role "assistant" l0
                           /\ List.length l0 = 2 * count_role "user" l0).
  { unfold count_role.
    induction n as [|n IH]; intros [|u [|a l0]] Hlen He; cbn in *;
      try (split; reflexivity); try lia; try contradiction.
    destruct He as (Hu & Ha & He). rewrite Hu, Ha. cbn.
    destruct (IH l0 ltac:(lia) He) as [Hc Hlen']. split; lia. }
  now apply (H (List.length l)).
Qed.

Lemma interact_history (parse_number : string -> option Q)
  (to_datetime : cell -> cell) (steps : list interaction) (w : world) :
  history (interact parse_number to_datetime steps w)
  = (history w
     ++ List.concat (map (appended parse_number to_datetime) steps))%list.
Proof.
  revert w. induction steps as [|i steps IH]; intros w.
  - cbn. now rewrite app_nil_r.
  - cbn [interact fold_left map List.concat].
    change (fold_left _ steps ?w0)
      with (interact parse_number to_datetime steps w0).
    rewrite IH, rerun_history. now rewrite app_assoc.
Qed.

(** X21.  The conversation is always made of whole exchanges: if it starts as a
    sequence of a user turn followed by an assistant turn, it is one after
    any sequence of runs, whether their completions succeed or fail; so it
    holds as many assistant turns as user turns, and every submitted text
    that was stored has its reply. *)
Theorem conversation_stays_exchanges (parse_number : string -> option Q)
  (to_datetime : cell -> cell) (steps : list interaction) (w : world) :
  exchanges (history w) ->
  let l := history (interact parse_number to_datetime steps w) in
  exchanges l
  /\ count_role "user" l = count_role "assistant" l
  /\ List.length l = 2 * count_role "user" l.
Proof.
  intros Hw. cbv zeta.
  assert (He : exchanges (history (interact parse_number to_datetime steps w))).
  { rewrite interact_history. apply exchanges_app; [exact Hw|].
    induction steps as [|i steps IH]; [exact I|].
    cbn [map List.concat]. apply exchanges_app; [|exact IH].
    destruct (appended_shape parse_number to_datetime i)
      as [-> | (q & reply & _ & ->)]; cbn; tauto. }
  split; [exact He|]. now apply exchanges_counts.
Qed.

Lemma conversation_stays_exchanges_witness :
  exchanges
    (history (interact no_numbers keep
                [mkInteraction (mkInputs 0 0 (Some "a")) (answering "b");
                 mkInteraction (mkInputs 0 0 None) failing_backend;
                 mkInteraction (mkInputs 1 0 (Some "c")) failing_backend]
                empty_world)).
Proof.
  apply (conversation_stays_exchanges no_numbers keep
           [mkInteraction (mkInputs 0 0 (Some "a")) (answering "b");
            mkInteraction (mkInputs 0 0 None) failing_backend;
            mkInteraction (mkInputs 1 0 (Some "c")) failing_backend]
           empty_world).
  exact I.
Defined.
